(** * LoanLedger: the interest-accrual engine of [src/LoanLedger.jsx]

    A shallow embedding of [parseDate], [getDaysInYear],
    [calculateSimpleInterest], [generateLedger] and the [handleSubmit] of the
    transaction form, together with the part of date-fns and of the
    JavaScript [Date] object that they call.

    Modelling conventions.
    - A JavaScript number is a rational ([Q]); [==] is numeric equality.
      Rounding of IEEE doubles is not modelled.  Amounts are numbers.  The
      interest rate is what the account holds ([Rate]): the number a new
      ledger starts with, or the text of the form's input, which a test and
      an arithmetic operation read differently.  The TDS rate only occurs in
      arithmetic and is the number it reads as.
    - A [Date] is its time value: milliseconds since the epoch, an integer.
      The host's time zone is UTC, so that [new Date("yyyy-MM-dd")] and
      [startOfDay] agree on the day.  On a host west of UTC
      [startOfDay(new Date("yyyy-MM-dd"))] is the day before the written
      one; a statement that places a row on the date of a transaction or on
      the end date therefore speaks of [format (parseDay d)], the date a row
      gets for the written date [d], and not of [d] itself.
    - A well-formed date string ["yyyy-MM-dd"] is represented by the number of
      the day it denotes (days since 1970-01-01); the account's start and end
      date may also be a string that does not parse (the empty string of an
      untouched form field).  Transaction dates are well-formed.
    - [new Date()], the only reading of the clock, is an explicit argument
      [now] of [generateLedger]: the time value the clock shows at the call. *)

From Stdlib Require Import ZArith QArith Qround.
From Stdlib Require Import List Bool String Lia Lqa Sorted.
Import ListNotations.

Local Open Scope Z_scope.

(** ** The calendar of the JavaScript [Date] object *)

Module Calendar.

Definition msPerDay : Z := 86400000.

(** Day number of a time value, and the time value at which a day starts. *)
Definition dayOf (t : Z) : Z := t / msPerDay.
Definition dayStart (d : Z) : Z := d * msPerDay.

Definition daysPerEra : Z := 146097.
Definition epochShift : Z := 719468.

(** Year, month (1..12) and day of month of a day number, in the proleptic
    Gregorian calendar; years are counted from March inside the
    computation. *)
Definition civilFromDays (z : Z) : Z * Z * Z :=
  let z0 := z + epochShift in
  let era := z0 / daysPerEra in
  let doe := z0 mod daysPerEra in
  let yoe := (doe - doe / 1460 + doe / 36524 - doe / 146096) / 365 in
  let y := yoe + era * 400 in
  let doy := doe - (365 * yoe + yoe / 4 - yoe / 100) in
  let mp := (5 * doy + 2) / 153 in
  let d := doy - (153 * mp + 2) / 5 + 1 in
  let m := if mp <? 10 then mp + 3 else mp - 9 in
  (if m <=? 2 then y + 1 else y, m, d).

Definition daysFromCivil (y m d : Z) : Z :=
  let y' := if m <=? 2 then y - 1 else y in
  let era := y' / 400 in
  let yoe := y' mod 400 in
  let doy := (153 * (if 2 <? m then m - 3 else m + 9) + 2) / 5 + d - 1 in
  let doe := yoe * 365 + yoe / 4 - yoe / 100 + doy in
  era * daysPerEra + doe - epochShift.

(** [Date.prototype.getFullYear]. *)
Definition getFullYear (t : Z) : Z :=
  let '(y, _, _) := civilFromDays (dayOf t) in y.

(** [date.setMonth(month, 0)] on a date of year [y]: the day before the
    first of the 0-based [month], where month 12 is January of [y + 1]. *)
Definition lastDayBeforeMonth (y month : Z) : Z :=
  (if month <? 12 then daysFromCivil y (month + 1) 1
   else daysFromCivil (y + 1) (month - 11) 1) - 1.

(** The day on which the quarter of day [z] ends: with [currentMonth] the
    0-based month of [z], [setMonth(currentMonth - currentMonth % 3 + 3, 0)]. *)
Definition endOfQuarterDay (z : Z) : Z :=
  let '(y, m, _) := civilFromDays z in
  let currentMonth := m - 1 in
  let month := currentMonth - Z.rem currentMonth 3 + 3 in
  lastDayBeforeMonth y month.

End Calendar.

(** ** date-fns *)

Module DateFns.
Import Calendar.

Definition startOfDay (t : Z) : Z := dayStart (dayOf t).
Definition isAfter (a b : Z) : bool := b <? a.
Definition isBefore (a b : Z) : bool := a <? b.
Definition isSameDay (a b : Z) : bool := dayOf a =? dayOf b.
Definition addDays (t n : Z) : Z := t + n * msPerDay.
Definition getYear (t : Z) : Z := getFullYear t.

(** [format(t, 'yyyy-MM-dd')]: the day of [t], which is what the rows hold
    as their date. *)
Definition format (t : Z) : Z := dayOf t.

(** Full days from [b] to [a], truncated towards zero. *)
Definition differenceInDays (a b : Z) : Z := Z.quot (a - b) msPerDay.

(** [setMonth(month, 0); setHours(23, 59, 59, 999)]: the last millisecond of
    the quarter. *)
Definition endOfQuarter (t : Z) : Z :=
  dayStart (endOfQuarterDay (dayOf t)) + (msPerDay - 1).

End DateFns.

(** ** Data *)

(** A date string as the forms produce it. *)
Inductive DateString : Type :=
| NoDate                (* the empty string, or a string [new Date] rejects *)
| IsoDate (day : Z).    (* "yyyy-MM-dd" *)

(** The interest rate as an account holds it: the number a new ledger starts
    with ([handleAddNewLedger]), or the text of the form's number input
    ([handleCustomerChange] stores [e.target.value]), which is empty or a
    numeral. *)
Inductive Rate : Type :=
| RateNumber (value : Q)
| RateText (numeral : option Q).   (* [None]: the empty string *)

(** What arithmetic reads in a rate: a text counts as the number it denotes,
    the empty string as 0.  JavaScript converts without a word, and so does
    the coercion. *)
Definition toNumber (r : Rate) : Q :=
  match r with
  | RateNumber value => value
  | RateText (Some value) => value
  | RateText None => 0%Q
  end.

Coercion toNumber : Rate >-> Q.

(** What a test reads in a rate: the number 0 and the empty string are falsy;
    a text that is not empty is truthy, whatever number it denotes. *)
Definition isTruthy (r : Rate) : bool :=
  match r with
  | RateNumber value => negb (Qeq_bool value 0)
  | RateText (Some _) => true
  | RateText None => false
  end.

Module Customer.
Record t : Type := mk {
  iclStartDate : DateString;
  iclEndDate : DateString;
  interestMethod : string;
  interestRate : Rate;
  tdsRate : Q           (* the number its field reads as *)
}.
End Customer.

Module Transaction.
Record t : Type := mk {
  date : Z;             (* day of its "yyyy-MM-dd" string *)
  paid : Q;
  repaid : Q
}.
End Transaction.

Module LedgerRow.
Record t : Type := mk {
  date : Z;             (* day of its "yyyy-MM-dd" string *)
  description : string;
  paid : Q;
  repaid : Q;
  principal : Q;
  interest : Q;
  tds : Q;
  netInterest : Q;
  cumulativeInterest : Q
}.
End LedgerRow.

Definition Deposit : string := "Deposit".
Definition Repayment : string := "Repayment".
Definition InterestPeriod : string := "Interest Period".
Definition Capitalized : string := "Quarterly Interest Capitalized".
Definition Compound : string := "Compound".
Definition Simple : string := "Simple".

(** ** Helper functions *)

Import Calendar DateFns.

(** [startOfDay(new Date(dateString))] on a well-formed string. *)
Definition parseDay (day : Z) : Z := startOfDay (dayStart day).

Definition parseDate (dateString : DateString) : option Z :=
  match dateString with
  | NoDate => None
  | IsoDate day => Some (parseDay day)
  end.

Definition getDaysInYear (year : Z) : Z :=
  if ((Z.rem year 4 =? 0) && negb (Z.rem year 100 =? 0))
     || (Z.rem year 400 =? 0)
  then 366 else 365.

Definition Qgt_bool (x y : Q) : bool := negb (Qle_bool x y).

Definition calculateSimpleInterest (principal rate : Q) (days year : Z) : Q :=
  if Qle_bool principal 0 || (days <=? 0) then 0%Q
  else ((principal * rate * inject_Z days) /
        (100 * inject_Z (getDaysInYear year)))%Q.

(** ** Containers of the engine *)

(** [Set.prototype.add]: insertion order, no duplicate. *)
Definition setAdd (s : list Z) (x : Z) : list Z :=
  if existsb (Z.eqb x) s then s else s ++ [x].

(** [Array.prototype.sort((a, b) => a - b)] on time values. *)
Fixpoint insertDate (x : Z) (l : list Z) : list Z :=
  match l with
  | [] => [x]
  | y :: l' => if x <? y then x :: l else y :: insertDate x l'
  end.

Definition sortDates (l : list Z) : list Z := fold_right insertDate [] l.

(** The stable sort of the transactions by their parsed date. *)
Fixpoint insertTransaction (x : Transaction.t) (l : list Transaction.t)
  : list Transaction.t :=
  match l with
  | [] => [x]
  | y :: l' =>
      if parseDay (Transaction.date x) - parseDay (Transaction.date y) <=? 0
      then x :: l else y :: insertTransaction x l'
  end.

Definition sortTransactions (l : list Transaction.t) : list Transaction.t :=
  fold_right insertTransaction [] l.

(** ** The ledger engine *)

Record LoopState : Type := mkState {
  runningPrincipal : Q;
  cumulativeInterest : Q;
  newLedgerRows : list LedgerRow.t
}.

(** Body of the [while] loop that adds the quarter ends. *)
Definition quarterBody (firstTransactionDate lastPossibleDate currentDate : Z)
  (eventDates : list Z) : list Z :=
  let quarterEnd := endOfQuarter currentDate in
  if negb (isAfter quarterEnd lastPossibleDate)
     && negb (isBefore quarterEnd firstTransactionDate)
  then setAdd eventDates (dayOf quarterEnd)
  else eventDates.

Fixpoint quarterLoop (fuel : nat)
  (firstTransactionDate lastPossibleDate currentDate : Z)
  (eventDates : list Z) : list Z :=
  match fuel with
  | O => eventDates
  | S fuel' =>
      if negb (isAfter currentDate lastPossibleDate) then
        quarterLoop fuel' firstTransactionDate lastPossibleDate
          (addDays (endOfQuarter currentDate) 1)
          (quarterBody firstTransactionDate lastPossibleDate currentDate
             eventDates)
      else eventDates
  end.

(** Every turn of the loop moves [currentDate] at least one day ahead, so this
    many turns reach the exit (lemma [quarterLoop_terminates]). *)
Definition quarterFuel (lastPossibleDate currentDate : Z) : nat :=
  Z.to_nat ((lastPossibleDate - currentDate) / msPerDay + 1).

(** Body of the [for] loop over the event dates. *)
Definition processEvent (customer : Customer.t) (iclStartDate : Z)
  (sortedTransactions : list Transaction.t)
  (eventDate : Z) (nextEventDate : option Z) (st : LoopState) : LoopState :=
  let transactionsOnDate :=
    filter (fun t => isSameDay (parseDay (Transaction.date t)) eventDate)
      sortedTransactions in
  let paidToday :=
    fold_left (fun acc t => (acc + Transaction.paid t)%Q)
      transactionsOnDate 0%Q in
  let repaidToday :=
    fold_left (fun acc t => (acc + Transaction.repaid t)%Q)
      transactionsOnDate 0%Q in
  let runningPrincipal := (runningPrincipal st + (paidToday - repaidToday))%Q in
  let daysInPeriod :=
    match nextEventDate with
    | Some next => differenceInDays next eventDate
    | None => 1
    end in
  let interest :=
    calculateSimpleInterest runningPrincipal (Customer.interestRate customer)
      daysInPeriod (getYear eventDate) in
  let tds := (interest * (Customer.tdsRate customer / 100))%Q in
  let netInterest := (interest - tds)%Q in
  let cumulativeInterest := (cumulativeInterest st + netInterest)%Q in
  let rows :=
    newLedgerRows st ++
    [LedgerRow.mk (dayOf eventDate)
       (if Qgt_bool paidToday 0 then Deposit
        else if Qgt_bool repaidToday 0 then Repayment else InterestPeriod)
       paidToday repaidToday runningPrincipal
       interest tds netInterest cumulativeInterest] in
  let isCurrentEventQuarterEnd :=
    isSameDay eventDate (endOfQuarter eventDate) in
  let useCompound :=
    isAfter eventDate iclStartDate || isSameDay eventDate iclStartDate in
  if isCurrentEventQuarterEnd && useCompound
     && String.eqb (Customer.interestMethod customer) Compound
     && Qgt_bool cumulativeInterest 0
  then
    let runningPrincipal' := (runningPrincipal + cumulativeInterest)%Q in
    mkState runningPrincipal' 0%Q
      (rows ++
       [LedgerRow.mk (dayOf eventDate) Capitalized 0%Q 0%Q runningPrincipal'
          0%Q 0%Q 0%Q cumulativeInterest])
  else mkState runningPrincipal cumulativeInterest rows.

Fixpoint ledgerLoop (customer : Customer.t) (iclStartDate : Z)
  (sortedTransactions : list Transaction.t)
  (uniqueSortedDates : list Z) (st : LoopState) : LoopState :=
  match uniqueSortedDates with
  | [] => st
  | eventDate :: rest =>
      ledgerLoop customer iclStartDate sortedTransactions rest
        (processEvent customer iclStartDate sortedTransactions
           eventDate (hd_error rest) st)
  end.

(** The filter of the transactions: those after the end date are dropped. *)
Definition notAfterEnd (iclEndDate : option Z) (t : Transaction.t) : bool :=
  match iclEndDate with
  | Some e => negb (isAfter (parseDay (Transaction.date t)) e)
  | None => true
  end.

(** The event dates: the transaction dates, the quarter ends from the first
    transaction to the last possible date, and the end date when there is
    one; as day strings, in insertion order. *)
Definition buildEventDates (customer : Customer.t) (iclEndDate : option Z)
  (now : Z) (sortedTransactions : list Transaction.t)
  (firstTransactionDate : Z) : list Z :=
  let eventDates :=
    fold_left setAdd (map Transaction.date sortedTransactions) [] in
  let lastPossibleDate :=
    match iclEndDate with
    | Some e => e
    | None => startOfDay now
    end in
  let eventDates :=
    quarterLoop (quarterFuel lastPossibleDate firstTransactionDate)
      firstTransactionDate lastPossibleDate firstTransactionDate eventDates in
  match iclEndDate, Customer.iclEndDate customer with
  | Some _, IsoDate day => setAdd eventDates day
  | _, _ => eventDates
  end.

Definition generateLedger (now : Z) (customer : Customer.t)
  (transactions : list Transaction.t) : list LedgerRow.t :=
  let iclStartDate := parseDate (Customer.iclStartDate customer) in
  let iclEndDate := parseDate (Customer.iclEndDate customer) in
  match iclStartDate with
  | None => []
  | Some iclStartDate =>
      if negb (isTruthy (Customer.interestRate customer))
         || (List.length transactions =? 0)%nat
      then []
      else
        let sortedTransactions :=
          sortTransactions
            (filter (notAfterEnd iclEndDate) transactions) in
        match sortedTransactions with
        | [] => []
        | first :: _ =>
            let firstTransactionDate := parseDay (Transaction.date first) in
            let eventDates :=
              buildEventDates customer iclEndDate now sortedTransactions
                firstTransactionDate in
            let uniqueSortedDates := sortDates (map parseDay eventDates) in
            newLedgerRows
              (ledgerLoop customer iclStartDate sortedTransactions
                 uniqueSortedDates (mkState 0%Q 0%Q []))
        end
  end.

(** ** The [while] loop, as a relation *)

(** Big-step semantics of the [while] loop of [generateLedger]. *)
Inductive QuarterWhile (firstTransactionDate lastPossibleDate : Z)
  : Z -> list Z -> list Z -> Prop :=
| QuarterWhile_exit currentDate eventDates :
    isAfter currentDate lastPossibleDate = true ->
    QuarterWhile firstTransactionDate lastPossibleDate
      currentDate eventDates eventDates
| QuarterWhile_turn currentDate eventDates nextDate eventDates' final :
    isAfter currentDate lastPossibleDate = false ->
    eventDates' =
      quarterBody firstTransactionDate lastPossibleDate currentDate
        eventDates ->
    nextDate = addDays (endOfQuarter currentDate) 1 ->
    QuarterWhile firstTransactionDate lastPossibleDate
      nextDate eventDates' final ->
    QuarterWhile firstTransactionDate lastPossibleDate
      currentDate eventDates final.

(** ** The rows of one event *)

Section EventRows.

Variable customer : Customer.t.
Variable iclStartDate : Z.
Variable sortedTransactions : list Transaction.t.

Definition transactionsOn (eventDate : Z) : list Transaction.t :=
  filter (fun t => isSameDay (parseDay (Transaction.date t)) eventDate)
    sortedTransactions.

Definition paidOn (eventDate : Z) : Q :=
  fold_left (fun acc t => (acc + Transaction.paid t)%Q)
    (transactionsOn eventDate) 0%Q.

Definition repaidOn (eventDate : Z) : Q :=
  fold_left (fun acc t => (acc + Transaction.repaid t)%Q)
    (transactionsOn eventDate) 0%Q.

Definition periodDays (eventDate : Z) (nextEventDate : option Z) : Z :=
  match nextEventDate with
  | Some next => differenceInDays next eventDate
  | None => 1
  end.

(** The row every event pushes, from the state [P], [C] before it. *)
Definition mainRow (eventDate : Z) (nextEventDate : option Z) (P C : Q)
  : LedgerRow.t :=
  let P1 := (P + (paidOn eventDate - repaidOn eventDate))%Q in
  let interest :=
    calculateSimpleInterest P1 (Customer.interestRate customer)
      (periodDays eventDate nextEventDate) (getYear eventDate) in
  let tds := (interest * (Customer.tdsRate customer / 100))%Q in
  let netInterest := (interest - tds)%Q in
  LedgerRow.mk (dayOf eventDate)
    (if Qgt_bool (paidOn eventDate) 0 then Deposit
     else if Qgt_bool (repaidOn eventDate) 0 then Repayment
          else InterestPeriod)
    (paidOn eventDate) (repaidOn eventDate) P1
    interest tds netInterest (C + netInterest)%Q.

(** The test that guards the second row, on the interest accumulated
    after the first. *)
Definition capitalizes (eventDate : Z) (cumulative : Q) : bool :=
  isSameDay eventDate (endOfQuarter eventDate)
  && (isAfter eventDate iclStartDate || isSameDay eventDate iclStartDate)
  && String.eqb (Customer.interestMethod customer) Compound
  && Qgt_bool cumulative 0.

Definition capRow (eventDate : Z) (P1 C1 : Q) : LedgerRow.t :=
  LedgerRow.mk (dayOf eventDate) Capitalized 0%Q 0%Q (P1 + C1)%Q
    0%Q 0%Q 0%Q C1.

(** The rows the loop pushes from the state [P], [C] on, in order. *)
Fixpoint trace (dates : list Z) (P C : Q) : list LedgerRow.t :=
  match dates with
  | [] => []
  | eventDate :: rest =>
      let st :=
        processEvent customer iclStartDate sortedTransactions
          eventDate (hd_error rest) (mkState P C []) in
      newLedgerRows st
      ++ trace rest (runningPrincipal st) (cumulativeInterest st)
  end.

End EventRows.

(** ** Properties of rows and of neighbouring rows *)

(** A time value that is the start of its day. *)
Definition DayAligned (t : Z) : Prop := dayStart (dayOf t) = t.

(** The first row pushed from a state whose cumulative interest is [C]: it is
    not a capitalization and it adds its net interest to [C]. *)
Definition RestartsFrom (P C : Q) (dates : list Z) (r : LedgerRow.t) : Prop :=
  LedgerRow.description r <> Capitalized
  /\ (LedgerRow.cumulativeInterest r == C + LedgerRow.netInterest r)%Q.

(** Two neighbouring rows, the second or the first a capitalization. *)
Definition CapitalizationLink (customer : Customer.t) (iclStartDate : Z)
  (r1 r2 : LedgerRow.t) : Prop :=
  (LedgerRow.description r2 = Capitalized ->
     LedgerRow.description r1 <> Capitalized
     /\ (LedgerRow.principal r2 ==
         LedgerRow.principal r1 + LedgerRow.cumulativeInterest r1)%Q
     /\ (0 < LedgerRow.cumulativeInterest r1)%Q
     /\ Customer.interestMethod customer = Compound
     /\ endOfQuarterDay (LedgerRow.date r2) = LedgerRow.date r2
     /\ dayOf iclStartDate <= LedgerRow.date r2)
  /\ (LedgerRow.description r1 = Capitalized ->
      (LedgerRow.cumulativeInterest r2 == LedgerRow.netInterest r2)%Q).

(** The state after an event agrees with the last row pushed: its running
    principal is the principal of that row, and its cumulative interest is
    zero after a capitalization and the cumulative interest of the row
    otherwise. *)
Definition StateAgrees (st : LoopState) : Prop :=
  match rev (newLedgerRows st) with
  | [] => True
  | r :: _ =>
      runningPrincipal st = LedgerRow.principal r
      /\ cumulativeInterest st =
         if String.eqb (LedgerRow.description r) Capitalized then 0%Q
         else LedgerRow.cumulativeInterest r
  end.

(** The running total goes on from one row to the next. *)
Definition Accumulates (r1 r2 : LedgerRow.t) : Prop :=
  LedgerRow.description r2 <> Capitalized
  /\ (LedgerRow.cumulativeInterest r2 ==
      LedgerRow.cumulativeInterest r1 + LedgerRow.netInterest r2)%Q.

(** Between two neighbouring rows the cumulative interest does not decrease,
    unless the first is a capitalization; then it restarts. *)
Definition Monotone (r1 r2 : LedgerRow.t) : Prop :=
  (0 <= LedgerRow.netInterest r2)%Q
  /\ (LedgerRow.description r1 <> Capitalized ->
      (LedgerRow.cumulativeInterest r1 <= LedgerRow.cumulativeInterest r2)%Q)
  /\ (LedgerRow.description r1 = Capitalized ->
      (LedgerRow.cumulativeInterest r2 == LedgerRow.netInterest r2)%Q).

Definition AccruesFrom (P C : Q) (dates : list Z) (r : LedgerRow.t) : Prop :=
  (0 <= LedgerRow.netInterest r)%Q /\ RestartsFrom P C dates r.

Definition IncreasingDays (dates : list Z) : Prop :=
  StronglySorted Z.lt (map dayOf dates).

(** Dates do not decrease, and two rows of one date are the row of the event
    and its capitalization, in this order. *)
Definition Ordered (r1 r2 : LedgerRow.t) : Prop :=
  LedgerRow.date r1 <= LedgerRow.date r2
  /\ (LedgerRow.date r1 = LedgerRow.date r2 ->
      LedgerRow.description r1 <> Capitalized
      /\ LedgerRow.description r2 = Capitalized).

Definition StartsAt (P C : Q) (dates : list Z) (r : LedgerRow.t) : Prop :=
  exists e rest, dates = e :: rest /\ LedgerRow.date r = dayOf e.

(** Amounts only on deposits and repayments; no interest on a
    capitalization. *)
Definition Carries (r : LedgerRow.t) : Prop :=
  (LedgerRow.description r <> Deposit ->
   LedgerRow.description r <> Repayment ->
   (LedgerRow.paid r == 0)%Q /\ (LedgerRow.repaid r == 0)%Q)
  /\ (LedgerRow.description r = Capitalized ->
      (LedgerRow.interest r == 0)%Q /\ (LedgerRow.tds r == 0)%Q
      /\ (LedgerRow.netInterest r == 0)%Q).

(** The Gregorian rule in the words of the specification: divisible by 4 and
    not by 100, unless by 400. *)
Definition isLeapYear (year : Z) : Prop :=
  ((4 | year) /\ ~ (100 | year)) \/ (400 | year).

(** An amount rounded to two decimals, in hundredths. *)
Definition roundCents (q : Q) : Z := Qfloor (q * 100 + (1 # 2))%Q.

(** ** Sample accounts

    The scenario of the specification: a deposit of 100000 on 2023-04-01 at
    12 percent, TDS 10 percent, Compound, no end date, the clock showing
    2023-07-01 10:00; and variations of it. *)

Definition ymd (y m d : Z) : Z := daysFromCivil y m d.

Definition sampleCustomer : Customer.t :=
  Customer.mk (IsoDate (ymd 2023 4 1)) NoDate Compound (RateNumber 12) 10%Q.

Definition sampleTransactions : list Transaction.t :=
  [Transaction.mk (ymd 2023 4 1) 100000%Q 0%Q].

Definition sampleNow : Z := dayStart (ymd 2023 7 1) + 36000000.

Definition sampleLedger : list LedgerRow.t :=
  generateLedger sampleNow sampleCustomer sampleTransactions.

Definition simpleCustomer : Customer.t :=
  Customer.mk (IsoDate (ymd 2023 4 1)) NoDate Simple (RateNumber 12) 10%Q.

(** An account that is repaid more than it was lent. *)
Definition overRepaidTransactions : list Transaction.t :=
  [Transaction.mk (ymd 2023 4 1) 100%Q 0%Q;
   Transaction.mk (ymd 2023 5 1) 0%Q 200%Q].

Definition closedCustomer : Customer.t :=
  Customer.mk (IsoDate (ymd 2023 4 1)) (IsoDate (ymd 2023 6 30))
    Compound (RateNumber 12) 10%Q.

Definition laterNow : Z := dayStart (ymd 2023 10 2).

Definition lateTransactions : list Transaction.t :=
  [Transaction.mk (ymd 2023 8 1) 100000%Q 0%Q].

Definition negativeRateCustomer : Customer.t :=
  Customer.mk (IsoDate (ymd 2023 4 1)) NoDate Compound
    (RateNumber (-12)) 10%Q.

Definition negativeTdsCustomer : Customer.t :=
  Customer.mk (IsoDate (ymd 2023 4 1)) NoDate Compound
    (RateNumber 12) (-10)%Q.

Definition endBeforeStartCustomer : Customer.t :=
  Customer.mk (IsoDate (ymd 2023 4 1)) (IsoDate (ymd 2023 3 1))
    Compound (RateNumber 12) 10%Q.

Definition earlyTransactions : list Transaction.t :=
  [Transaction.mk (ymd 2023 2 1) 100000%Q 0%Q].

Definition zeroRateCustomer : Customer.t :=
  Customer.mk (IsoDate (ymd 2023 4 1)) NoDate Compound (RateNumber 0) 10%Q.

(** The same account after its rate field was set to 0 in the form, which
    holds the text, and after the field was cleared. *)
Definition zeroTextCustomer : Customer.t :=
  Customer.mk (IsoDate (ymd 2023 4 1)) NoDate Compound
    (RateText (Some 0%Q)) 10%Q.

Definition clearedRateCustomer : Customer.t :=
  Customer.mk (IsoDate (ymd 2023 4 1)) NoDate Compound (RateText None) 10%Q.

(** ** Sums over rows and over transactions *)


(** The transactions the engine keeps: those not after the end date. *)
Definition keptTransactions (customer : Customer.t)
  (transactions : list Transaction.t) : list Transaction.t :=
  filter (notAfterEnd (parseDate (Customer.iclEndDate customer))) transactions.


(** ** Years counted from March

    The day number of the day [doy] (counted from March 1) of the year [yoe]
    of the era [era], and the day, shifted by [epochShift], on which the
    year [Y] counted from March starts. *)

Definition marchDay (era yoe doy : Z) : Z :=
  era * 146097 + (365 * yoe + yoe / 4 - yoe / 100 + doy) - 719468.

Definition yearStart (Y : Z) : Z :=
  Y / 400 * 146097
  + (365 * (Y mod 400) + (Y mod 400) / 4 - (Y mod 400) / 100).

(** ** The horizon of the ledger *)

(** [iclEndDate || startOfDay(new Date())]. *)
Definition lastPossibleDate (now : Z) (iclEndDate : option Z) : Z :=
  match iclEndDate with
  | Some e => e
  | None => startOfDay now
  end.

(** The day of the last possible date: the end date, or the day the clock
    shows. *)
Definition horizonDay (now : Z) (customer : Customer.t) : Z :=
  dayOf (lastPossibleDate now (parseDate (Customer.iclEndDate customer))).

(** ** The event dates of a run *)

(** The set of event dates [generateLedger] builds, as day strings: empty
    when no transaction is kept. *)
Definition eventDatesOf (now : Z) (customer : Customer.t)
  (transactions : list Transaction.t) : list Z :=
  match sortTransactions (keptTransactions customer transactions) with
  | [] => []
  | first :: rest =>
      buildEventDates customer (parseDate (Customer.iclEndDate customer)) now
        (first :: rest) (parseDay (Transaction.date first))
  end.

(** Order of two rows, and of two transactions, by date. *)
Definition NotLater (r1 r2 : LedgerRow.t) : Prop :=
  LedgerRow.date r1 <= LedgerRow.date r2.

Definition NotLaterT (t1 t2 : Transaction.t) : Prop :=
  Transaction.date t1 <= Transaction.date t2.

(** The transactions of one day. *)
Definition transactionsOfDay (day : Z) (l : list Transaction.t)
  : list Transaction.t :=
  filter (fun t => Transaction.date t =? day) l.

(** ** The transaction form *)

(** What [handleSubmit] of the transaction form does with its fields: the
    date field holds a date, and the amounts are given as [parseFloat] reads
    them. *)
Inductive SubmitResult : Type :=
| SubmitError (iclEndDate : Z)     (* [setError(...)]: after the end date *)
| SubmitAdd (t : Transaction.t)    (* [onAdd({ date, paid, repaid })] *)
| SubmitNothing.                   (* neither amount is positive *)

(** [parseFloat(s) || 0], on what [parseFloat] returns: [None] is [NaN]. *)
Definition orZero (parsed : option Q) : Q :=
  match parsed with
  | Some q => if Qeq_bool q 0 then 0%Q else q
  | None => 0%Q
  end.

Definition handleSubmit (customer : Customer.t) (date : Z)
  (amountPaid amountRepaid : option Q) : SubmitResult :=
  let transactionDate := parseDay date in
  let iclEndDate := parseDate (Customer.iclEndDate customer) in
  let submit :=
    let paid := orZero amountPaid in
    let repaid := orZero amountRepaid in
    if Qgt_bool paid 0 || Qgt_bool repaid 0
    then SubmitAdd (Transaction.mk date paid repaid)
    else SubmitNothing in
  match iclEndDate with
  | Some e => if isAfter transactionDate e then SubmitError e else submit
  | None => submit
  end.

(** The year of a day. *)
Definition yearOfDay (day : Z) : Z := getFullYear (dayStart day).

(** A row that records a capitalization. *)
Definition IsCapitalization (r : LedgerRow.t) : Prop :=
  LedgerRow.description r = Capitalized.

(** The row at index [n]. *)
Definition sampleRow (n : nat) (ledger : list LedgerRow.t) : LedgerRow.t :=
  nth n ledger (capRow 0 0 0).

Definition laterLedger : list LedgerRow.t :=
  generateLedger laterNow sampleCustomer sampleTransactions.

Arguments dayOf : simpl never.
Arguments dayStart : simpl never.
Arguments endOfQuarter : simpl never.
Arguments getYear : simpl never.
Arguments differenceInDays : simpl never.
Arguments isSameDay : simpl never.
Arguments isAfter : simpl never.
Arguments parseDay : simpl never.
Arguments calculateSimpleInterest : simpl never.

(** ** Calendar facts *)

Example epoch_day :
  civilFromDays 0 = (1970, 1, 1) /\ daysFromCivil 1970 1 1 = 0.
Proof. split; reflexivity. Qed.

Example leap_day :
  civilFromDays (ymd 2024 2 29) = (2024, 2, 29)
  /\ ymd 2024 3 1 - ymd 2024 2 28 = 2
  /\ ymd 2023 3 1 - ymd 2023 2 28 = 1.
Proof. repeat split; reflexivity. Qed.

Example quarter_ends :
  map (fun d => civilFromDays (endOfQuarterDay d))
    [ymd 2023 1 1; ymd 2023 3 31; ymd 2023 4 1; ymd 2023 8 15; ymd 2023 11 30;
     ymd 2023 12 31]
  = [(2023, 3, 31); (2023, 3, 31); (2023, 6, 30); (2023, 9, 30); (2023, 12, 31);
     (2023, 12, 31)].
Proof. vm_compute. reflexivity. Qed.

Section CalendarFacts.

Lemma dayOf_dayStart (d : Z) : dayOf (dayStart d) = d.
Proof. unfold dayOf, dayStart, msPerDay. apply Z.div_mul. lia. Qed.

Lemma parseDay_dayStart (d : Z) : parseDay d = dayStart d.
Proof. unfold parseDay, startOfDay. now rewrite dayOf_dayStart. Qed.

Lemma dayOf_parseDay (d : Z) : dayOf (parseDay d) = d.
Proof. rewrite parseDay_dayStart. apply dayOf_dayStart. Qed.

Lemma format_parseDay (d : Z) : format (parseDay d) = d.
Proof. unfold format. apply dayOf_parseDay. Qed.

Lemma dayStart_dayOf_le (t : Z) :
  dayStart (dayOf t) <= t < dayStart (dayOf t) + msPerDay.
Proof.
  unfold dayStart, dayOf, msPerDay.
  pose proof (Z.div_mod t 86400000 ltac:(lia)).
  pose proof (Z.mod_pos_bound t 86400000 ltac:(lia)). lia.
Qed.

(** Inside one era the year of era and the day of year are in range. *)
Lemma yearOfEra_bounds (doe : Z) :
  0 <= doe < 146097 ->
  let yoe := (doe - doe / 1460 + doe / 36524 - doe / 146096) / 365 in
  0 <= yoe <= 399 /\ 0 <= doe - (365 * yoe + yoe / 4 - yoe / 100) <= 365.
Proof. intros H yoe. subst yoe. Z.div_mod_to_equations. lia. Qed.

(** No day comes after the end of its own quarter. *)
Lemma endOfQuarterDay_ge (z : Z) : z <= endOfQuarterDay z.
Proof.
  unfold endOfQuarterDay, civilFromDays, lastDayBeforeMonth, daysFromCivil,
    daysPerEra, epochShift.
  cbv zeta.
  set (z0 := z + 719468).
  assert (Hdoe : 0 <= z0 mod 146097 < 146097) by (apply Z.mod_pos_bound; lia).
  assert (Hz : z0 = 146097 * (z0 / 146097) + z0 mod 146097)
    by (apply Z.div_mod; lia).
  set (era := z0 / 146097) in *. set (doe := z0 mod 146097) in *.
  pose proof (yearOfEra_bounds doe Hdoe) as Hy. cbv zeta in Hy.
  set (yoe := (doe - doe / 1460 + doe / 36524 - doe / 146096) / 365) in *.
  set (doy := doe - (365 * yoe + yoe / 4 - yoe / 100)) in *.
  assert (Hdoe' : doe = 365 * yoe + yoe / 4 - yoe / 100 + doy)
    by (subst doy; lia).
  clearbody doy. clearbody yoe. clearbody doe. clearbody era.
  assert (Hmp : 0 <= (5 * doy + 2) / 153 <= 11)
    by (Z.div_mod_to_equations; lia).
  assert (Hmp2 : 153 * ((5 * doy + 2) / 153) <= 5 * doy + 2
                 < 153 * ((5 * doy + 2) / 153) + 153)
    by (Z.div_mod_to_equations; lia).
  set (mp := (5 * doy + 2) / 153) in *. clearbody mp.
  assert (Hc : mp = 0 \/ mp = 1 \/ mp = 2 \/ mp = 3 \/ mp = 4 \/ mp = 5 \/
               mp = 6 \/ mp = 7 \/ mp = 8 \/ mp = 9 \/ mp = 10 \/ mp = 11)
    by lia.
  destruct Hy as [Hy1 Hy2].
  repeat (destruct Hc as [Hc|Hc]); subst mp; cbn -[Z.div Z.modulo Z.mul];
    Z.div_mod_to_equations; lia.
Qed.

Lemma endOfQuarter_ge (t : Z) : t <= endOfQuarter t.
Proof.
  unfold endOfQuarter.
  pose proof (endOfQuarterDay_ge (dayOf t)) as Hq.
  pose proof (dayStart_dayOf_le t) as Ht.
  unfold dayStart, msPerDay in *. nia.
Qed.

End CalendarFacts.

(** ** The quarter-end loop terminates *)

Lemma quarterLoop_enough_fuel (first last : Z) (fuel : nat) :
  forall cur ev,
    (last - cur) / msPerDay + 1 <= Z.of_nat fuel ->
    QuarterWhile first last cur ev (quarterLoop fuel first last cur ev).
Proof.
  induction fuel as [|fuel IH]; intros cur ev Hfuel.
  - cbn [quarterLoop]. apply QuarterWhile_exit. unfold isAfter. apply Z.ltb_lt.
    unfold msPerDay in Hfuel.
    destruct (Z.lt_ge_cases last cur) as [|Hle]; [assumption|].
    assert (0 <= (last - cur) / 86400000) by (apply Z.div_pos; lia). lia.
  - cbn [quarterLoop]. destruct (isAfter cur last) eqn:Hafter; cbn [negb].
    + now apply QuarterWhile_exit.
    + eapply QuarterWhile_turn; [assumption | reflexivity | reflexivity |].
      apply IH.
      pose proof (endOfQuarter_ge cur) as Hq.
      unfold addDays, msPerDay in *.
      assert ((last - (endOfQuarter cur + 1 * 86400000)) / 86400000
              <= (last - cur) / 86400000 - 1).
      { replace ((last - cur) / 86400000 - 1)
          with ((last - cur + (-1) * 86400000) / 86400000)
          by (rewrite Z.div_add by lia; lia).
        apply Z.div_le_mono; lia. }
      lia.
Qed.

Lemma QuarterWhile_functional (first last cur : Z) (ev a b : list Z) :
  QuarterWhile first last cur ev a -> QuarterWhile first last cur ev b -> a = b.
Proof.
  intros Ha. revert b.
  induction Ha as [cur ev Hexit | cur ev next ev' final Hgo -> -> _ IH];
    intros b Hb.
  - inversion Hb; subst; [reflexivity | congruence].
  - inversion Hb; subst; [congruence | now apply IH].
Qed.

(** The fuel [generateLedger] gives the loop is enough: the loop leaves through
    its test, and its result is the one of the [while] loop. *)
Lemma quarterLoop_terminates (first last cur : Z) (ev : list Z) :
  QuarterWhile first last cur ev
    (quarterLoop (quarterFuel last cur) first last cur ev).
Proof.
  apply quarterLoop_enough_fuel. unfold quarterFuel. lia.
Qed.

(** ** Sets and sorting *)

Section Containers.

Lemma setAdd_NoDup (s : list Z) (x : Z) : NoDup s -> NoDup (setAdd s x).
Proof.
  intros Hs. unfold setAdd.
  destruct (existsb (Z.eqb x) s) eqn:Hex; [assumption|].
  apply NoDup_app; [assumption | repeat constructor; intros [] | ].
  intros y Hy [->|[]].
  assert (existsb (Z.eqb y) s = true); [|congruence].
  apply existsb_exists. exists y. split; [assumption | apply Z.eqb_refl].
Qed.

Lemma fold_setAdd_NoDup (xs s : list Z) :
  NoDup s -> NoDup (fold_left setAdd xs s).
Proof.
  revert s. induction xs as [|x xs IH]; intros s Hs; simpl; [assumption|].
  apply IH. now apply setAdd_NoDup.
Qed.

Lemma quarterBody_NoDup (first last cur : Z) (ev : list Z) :
  NoDup ev -> NoDup (quarterBody first last cur ev).
Proof.
  intros H. unfold quarterBody.
  destruct (negb (isAfter (endOfQuarter cur) last)
            && negb (isBefore (endOfQuarter cur) first));
    [now apply setAdd_NoDup | assumption].
Qed.

Lemma quarterLoop_NoDup (fuel : nat) (first last : Z) :
  forall cur ev, NoDup ev -> NoDup (quarterLoop fuel first last cur ev).
Proof.
  induction fuel as [|fuel IH]; intros cur ev H; cbn [quarterLoop];
    [assumption|].
  destruct (negb (isAfter cur last)); [|assumption].
  apply IH. now apply quarterBody_NoDup.
Qed.

Lemma insertDate_In (x y : Z) (l : list Z) :
  In y (insertDate x l) <-> y = x \/ In y l.
Proof.
  induction l as [|z l IH]; simpl.
  - intuition.
  - destruct (x <? z); simpl; rewrite ?IH; intuition.
Qed.

Lemma sortDates_In (y : Z) (l : list Z) : In y (sortDates l) <-> In y l.
Proof.
  induction l as [|x l IH]; simpl; [tauto|].
  rewrite insertDate_In, IH. intuition.
Qed.

Lemma insertDate_sorted (x : Z) (l : list Z) :
  StronglySorted Z.lt l -> ~ In x l -> StronglySorted Z.lt (insertDate x l).
Proof.
  induction l as [|y l IH]; intros Hs Hx; simpl.
  - repeat constructor.
  - inversion Hs as [|? ? Hl Hy]; subst.
    destruct (x <? y) eqn:Hxy.
    + apply Z.ltb_lt in Hxy. constructor; [assumption|].
      constructor; [assumption|].
      eapply Forall_impl; [|exact Hy]. intros; lia.
    + apply Z.ltb_ge in Hxy. constructor.
      * apply IH; [assumption|]. intros Hin. apply Hx. now right.
      * apply Forall_forall. intros z Hz. apply insertDate_In in Hz.
        destruct Hz as [->|Hz].
        -- assert (x <> y) by (intros ->; apply Hx; now left). lia.
        -- rewrite Forall_forall in Hy. now apply Hy.
Qed.

Lemma sortDates_sorted (l : list Z) :
  NoDup l -> StronglySorted Z.lt (sortDates l).
Proof.
  induction 1 as [|x l Hx Hl IH]; simpl; [constructor|].
  apply insertDate_sorted; [assumption|]. now rewrite sortDates_In.
Qed.

Lemma insertTransaction_In (x y : Transaction.t) (l : list Transaction.t) :
  In y (insertTransaction x l) <-> y = x \/ In y l.
Proof.
  induction l as [|z l IH]; simpl.
  - intuition.
  - destruct (_ <=? 0); simpl; rewrite ?IH; intuition.
Qed.

Lemma sortTransactions_In (y : Transaction.t) (l : list Transaction.t) :
  In y (sortTransactions l) <-> In y l.
Proof.
  induction l as [|x l IH]; simpl; [tauto|].
  rewrite insertTransaction_In, IH. intuition.
Qed.

End Containers.

Section EventDates.

Lemma parseDay_aligned (d : Z) : DayAligned (parseDay d).
Proof. unfold DayAligned. now rewrite dayOf_parseDay, parseDay_dayStart. Qed.

Lemma map_parseDay_NoDup (l : list Z) : NoDup l -> NoDup (map parseDay l).
Proof.
  induction 1 as [|x l Hx Hl IH]; simpl; constructor; [|assumption].
  intros Hin. apply in_map_iff in Hin. destruct Hin as [y [Hy Hin]].
  apply (f_equal dayOf) in Hy. rewrite !dayOf_parseDay in Hy. now subst.
Qed.

Lemma aligned_lt_days (a b : Z) :
  DayAligned a -> DayAligned b -> a < b -> dayOf a < dayOf b.
Proof.
  unfold DayAligned, dayStart, msPerDay. intros Ha Hb Hab. nia.
Qed.

Lemma sorted_days (l : list Z) :
  Forall DayAligned l -> StronglySorted Z.lt l ->
  StronglySorted Z.lt (map dayOf l).
Proof.
  intros Hal Hs. induction Hs as [|x l Hs IH Hx]; simpl; constructor.
  - apply IH. now inversion Hal.
  - inversion Hal as [|? ? Hax Hall]; subst.
    apply Forall_forall. intros d Hd. apply in_map_iff in Hd.
    destruct Hd as [t [<- Ht]].
    rewrite Forall_forall in Hx, Hall.
    apply aligned_lt_days; auto.
Qed.

Lemma buildEventDates_NoDup customer iclEndDate now sortedTransactions first :
  NoDup (buildEventDates customer iclEndDate now sortedTransactions first).
Proof.
  unfold buildEventDates.
  set (ev := quarterLoop _ _ _ _ _).
  assert (Hev : NoDup ev).
  { apply quarterLoop_NoDup, fold_setAdd_NoDup. constructor. }
  destruct iclEndDate; [|assumption].
  destruct (Customer.iclEndDate customer); [assumption|].
  now apply setAdd_NoDup.
Qed.

(** The event dates the [for] loop walks are strictly increasing days. *)
Lemma uniqueSortedDates_increasing (eventDates : list Z) :
  NoDup eventDates ->
  StronglySorted Z.lt (map dayOf (sortDates (map parseDay eventDates))).
Proof.
  intros H. apply sorted_days.
  - apply Forall_forall. intros t Ht. apply -> sortDates_In in Ht.
    apply in_map_iff in Ht. destruct Ht as [d [<- _]]. apply parseDay_aligned.
  - apply sortDates_sorted. now apply map_parseDay_NoDup.
Qed.

End EventDates.

(** ** The rows of one event *)

Section OneEvent.

Variable customer : Customer.t.
Variable iclStartDate : Z.
Variable sortedTransactions : list Transaction.t.

Lemma processEvent_eq eventDate nextEventDate st :
  processEvent customer iclStartDate sortedTransactions
    eventDate nextEventDate st =
  let main :=
    mainRow customer sortedTransactions eventDate nextEventDate
      (runningPrincipal st) (cumulativeInterest st) in
  let P1 := LedgerRow.principal main in
  let C1 := LedgerRow.cumulativeInterest main in
  if capitalizes customer iclStartDate eventDate C1
  then mkState (P1 + C1)%Q 0%Q
         (newLedgerRows st ++ [main; capRow eventDate P1 C1])
  else mkState P1 C1 (newLedgerRows st ++ [main]).
Proof.
  unfold processEvent, mainRow, capitalizes, capRow, paidOn, repaidOn,
    transactionsOn, periodDays.
  cbv zeta. cbn [LedgerRow.principal LedgerRow.cumulativeInterest].
  match goal with |- (if ?b then _ else _) = _ => destruct b end;
    [rewrite <- app_assoc|]; reflexivity.
Qed.

Lemma processEvent_rows eventDate nextEventDate st :
  let st' :=
    processEvent customer iclStartDate sortedTransactions
      eventDate nextEventDate st in
  let st0 :=
    processEvent customer iclStartDate sortedTransactions
      eventDate nextEventDate
      (mkState (runningPrincipal st) (cumulativeInterest st) []) in
  newLedgerRows st' = newLedgerRows st ++ newLedgerRows st0
  /\ runningPrincipal st' = runningPrincipal st0
  /\ cumulativeInterest st' = cumulativeInterest st0.
Proof.
  cbv zeta. rewrite !processEvent_eq. cbv zeta.
  cbn [runningPrincipal cumulativeInterest newLedgerRows].
  destruct (capitalizes _ _ _ _); cbn; auto.
Qed.

Lemma ledgerLoop_trace (dates : list Z) :
  forall st,
    newLedgerRows
      (ledgerLoop customer iclStartDate sortedTransactions dates st) =
    newLedgerRows st
    ++ trace customer iclStartDate sortedTransactions dates
         (runningPrincipal st) (cumulativeInterest st).
Proof.
  induction dates as [|e rest IH]; intros st; cbn [ledgerLoop trace].
  - now rewrite app_nil_r.
  - rewrite IH.
    destruct (processEvent_rows e (hd_error rest) st) as (Hrows & HP & HC).
    rewrite Hrows, HP, HC. now rewrite app_assoc.
Qed.

Lemma trace_cons (e : Z) (rest : list Z) (P C : Q) :
  let main := mainRow customer sortedTransactions e (hd_error rest) P C in
  let P1 := LedgerRow.principal main in
  let C1 := LedgerRow.cumulativeInterest main in
  trace customer iclStartDate sortedTransactions (e :: rest) P C =
  if capitalizes customer iclStartDate e C1
  then main :: capRow e P1 C1
       :: trace customer iclStartDate sortedTransactions rest (P1 + C1)%Q 0%Q
  else main :: trace customer iclStartDate sortedTransactions rest P1 C1.
Proof.
  cbv zeta. cbn [trace]. rewrite processEvent_eq. cbv zeta.
  cbn [runningPrincipal cumulativeInterest newLedgerRows].
  destruct (capitalizes _ _ _ _); reflexivity.
Qed.

(** *** Induction over the events

    [R] relates two neighbouring rows, [Hd P C dates] holds of the first row
    pushed from the state [P], [C] over [dates], and [I] is what the list of
    the remaining dates keeps. *)
Section Induction.

Variable R : LedgerRow.t -> LedgerRow.t -> Prop.
Variable Hd : Q -> Q -> list Z -> LedgerRow.t -> Prop.
Variable I : list Z -> Prop.

Hypothesis I_tail : forall e rest, I (e :: rest) -> I rest.

Hypothesis main_head : forall e rest P C,
  I (e :: rest) ->
  Hd P C (e :: rest)
    (mainRow customer sortedTransactions e (hd_error rest) P C).

Hypothesis main_cap : forall e rest P C,
  I (e :: rest) ->
  let main := mainRow customer sortedTransactions e (hd_error rest) P C in
  capitalizes customer iclStartDate e (LedgerRow.cumulativeInterest main)
  = true ->
  R main (capRow e (LedgerRow.principal main)
            (LedgerRow.cumulativeInterest main)).

Hypothesis cap_next : forall e rest P C r,
  I (e :: rest) ->
  let main := mainRow customer sortedTransactions e (hd_error rest) P C in
  let P1 := LedgerRow.principal main in
  let C1 := LedgerRow.cumulativeInterest main in
  capitalizes customer iclStartDate e C1 = true ->
  Hd (P1 + C1)%Q 0%Q rest r ->
  R (capRow e P1 C1) r.

Hypothesis main_next : forall e rest P C r,
  I (e :: rest) ->
  let main := mainRow customer sortedTransactions e (hd_error rest) P C in
  capitalizes customer iclStartDate e (LedgerRow.cumulativeInterest main)
  = false ->
  Hd (LedgerRow.principal main) (LedgerRow.cumulativeInterest main) rest r ->
  R main r.

Lemma trace_ind (dates : list Z) :
  forall P C,
    I dates ->
    Sorted R (trace customer iclStartDate sortedTransactions dates P C)
    /\ (forall r l,
          trace customer iclStartDate sortedTransactions dates P C = r :: l ->
          Hd P C dates r).
Proof.
  induction dates as [|e rest IH]; intros P C HI.
  - split; [constructor | discriminate].
  - pose proof (trace_cons e rest P C) as Heq. cbv zeta in Heq.
    pose proof (main_head e rest P C HI) as Hmain.
    pose proof (main_cap e rest P C HI) as Hcap.
    pose proof (fun r => cap_next e rest P C r HI) as Hcn.
    pose proof (fun r => main_next e rest P C r HI) as Hmn.
    cbv zeta in Hcap, Hcn, Hmn.
    set (main := mainRow customer sortedTransactions e (hd_error rest) P C)
      in *.
    destruct (capitalizes customer iclStartDate e
                (LedgerRow.cumulativeInterest main)).
    + destruct (IH (LedgerRow.principal main
                    + LedgerRow.cumulativeInterest main)%Q 0%Q
                  (I_tail _ _ HI)) as [Hs Hh].
      rewrite Heq. split.
      * constructor; [constructor; [assumption|] | constructor; auto].
        destruct (trace _ _ _ rest _ _) eqn:Ht; constructor.
        apply Hcn; [reflexivity|]. eapply Hh; reflexivity.
      * intros r l [= <- _]. assumption.
    + destruct (IH (LedgerRow.principal main)
                  (LedgerRow.cumulativeInterest main)
                  (I_tail _ _ HI)) as [Hs Hh].
      rewrite Heq. split.
      * constructor; [assumption|].
        destruct (trace _ _ _ rest _ _) eqn:Ht; constructor.
        apply Hmn; [reflexivity|]. eapply Hh; reflexivity.
      * intros r l [= <- _]. assumption.
Qed.

End Induction.

End OneEvent.

(** Neighbours in a locally sorted list are related. *)
Lemma Sorted_neighbours {A : Type} (R : A -> A -> Prop) (l : list A) :
  Sorted R l ->
  forall pre r1 r2 post, l = pre ++ r1 :: r2 :: post -> R r1 r2.
Proof.
  intros Hs pre. revert l Hs.
  induction pre as [|x pre IH]; intros l Hs r1 r2 post ->; simpl in Hs.
  - inversion Hs as [|? ? _ Hhd]; subst. now inversion Hhd.
  - inversion Hs; subst. eapply IH; eauto.
Qed.

Lemma Sorted_all {A : Type} (P : A -> Prop) (l : list A) :
  Sorted (fun _ r => P r) l ->
  (forall r l', l = r :: l' -> P r) ->
  forall r, In r l -> P r.
Proof.
  induction 1 as [|x l Hs IH Hhd]; intros Hfirst r Hin; [destruct Hin|].
  destruct Hin as [<-|Hin]; [eapply Hfirst; reflexivity|].
  apply IH; [|assumption].
  intros r' l' ->. now inversion Hhd.
Qed.

(** ** The ledger as a trace *)

Lemma generateLedger_cases (now : Z) (customer : Customer.t)
  (transactions : list Transaction.t) :
  generateLedger now customer transactions = []
  \/ exists start dates,
       parseDate (Customer.iclStartDate customer) = Some start
       /\ StronglySorted Z.lt (map dayOf dates)
       /\ generateLedger now customer transactions =
          trace customer start
            (sortTransactions
               (filter (notAfterEnd (parseDate (Customer.iclEndDate customer)))
                  transactions))
            dates 0%Q 0%Q.
Proof.
  unfold generateLedger.
  destruct (parseDate (Customer.iclStartDate customer)) as [start|];
    [|now left].
  destruct (negb _ || _); [now left|].
  set (sorted := sortTransactions _).
  destruct sorted as [|first rest] eqn:Hsorted; [now left|].
  right. exists start. eexists. split; [reflexivity|]. split.
  - apply uniqueSortedDates_increasing, buildEventDates_NoDup.
  - rewrite ledgerLoop_trace. reflexivity.
Qed.

(** ** Facts on the two kinds of row *)

Section RowFacts.

Variable customer : Customer.t.
Variable iclStartDate : Z.
Variable sortedTransactions : list Transaction.t.

Lemma mainRow_not_capitalized e n P C :
  LedgerRow.description (mainRow customer sortedTransactions e n P C)
  <> Capitalized.
Proof.
  unfold mainRow. cbn [LedgerRow.description].
  destruct (Qgt_bool _ _); [discriminate|].
  destruct (Qgt_bool _ _); discriminate.
Qed.

Lemma mainRow_cumulative e n P C :
  LedgerRow.cumulativeInterest (mainRow customer sortedTransactions e n P C) =
  (C + LedgerRow.netInterest (mainRow customer sortedTransactions e n P C))%Q.
Proof. reflexivity. Qed.

Lemma mainRow_date e n P C :
  LedgerRow.date (mainRow customer sortedTransactions e n P C) = dayOf e.
Proof. reflexivity. Qed.

Lemma Qgt_bool_true (x y : Q) : Qgt_bool x y = true <-> (y < x)%Q.
Proof.
  unfold Qgt_bool. rewrite negb_true_iff. split.
  - intros H. apply Qnot_le_lt. intros Hle.
    apply Qle_bool_iff in Hle. congruence.
  - intros H. destruct (Qle_bool x y) eqn:Hb; [|reflexivity].
    apply Qle_bool_iff in Hb. exfalso. now apply (Qlt_not_le y x).
Qed.

Lemma dayOf_endOfQuarter (t : Z) :
  dayOf (endOfQuarter t) = endOfQuarterDay (dayOf t).
Proof.
  unfold endOfQuarter. generalize (endOfQuarterDay (dayOf t)); intros q.
  unfold dayOf, dayStart, msPerDay.
  symmetry. apply (Z.div_unique _ _ q (86400000 - 1)); lia.
Qed.

Lemma dayOf_monotone (a b : Z) : a <= b -> dayOf a <= dayOf b.
Proof. intros H. unfold dayOf, msPerDay. apply Z.div_le_mono; lia. Qed.

(** When the engine capitalizes: in Compound mode, on a day that ends a
    quarter and is not before the start date, with interest accumulated. *)
Lemma capitalizes_spec e cum :
  capitalizes customer iclStartDate e cum = true <->
  endOfQuarterDay (dayOf e) = dayOf e
  /\ (iclStartDate < e \/ dayOf iclStartDate = dayOf e)
  /\ Customer.interestMethod customer = Compound
  /\ (0 < cum)%Q.
Proof.
  unfold capitalizes. rewrite !andb_true_iff, orb_true_iff.
  unfold isSameDay, isAfter.
  rewrite !Z.eqb_eq, Z.ltb_lt, String.eqb_eq, Qgt_bool_true, dayOf_endOfQuarter.
  intuition congruence.
Qed.

Lemma capitalizes_true e cum :
  capitalizes customer iclStartDate e cum = true ->
  endOfQuarterDay (dayOf e) = dayOf e
  /\ dayOf iclStartDate <= dayOf e
  /\ Customer.interestMethod customer = Compound
  /\ (0 < cum)%Q.
Proof.
  intros H. apply capitalizes_spec in H. destruct H as (Hq & Hs & Hm & Hc).
  repeat split; try assumption.
  destruct Hs as [Hs|Hs]; [apply dayOf_monotone|]; lia.
Qed.

End RowFacts.

(** ** Capitalization *)

Section Capitalization.

Variable customer : Customer.t.
Variable iclStartDate : Z.
Variable sortedTransactions : list Transaction.t.

Lemma trace_capitalization (dates : list Z) (P C : Q) :
  Sorted (CapitalizationLink customer iclStartDate)
    (trace customer iclStartDate sortedTransactions dates P C)
  /\ (forall r l,
        trace customer iclStartDate sortedTransactions dates P C = r :: l ->
        RestartsFrom P C dates r).
Proof.
  apply (trace_ind customer iclStartDate sortedTransactions
           (CapitalizationLink customer iclStartDate) RestartsFrom
           (fun _ => True));
    try (intros; exact Logic.I).
  - intros e rest P0 C0 _. split.
    + apply mainRow_not_capitalized.
    + rewrite mainRow_cumulative. reflexivity.
  - intros e rest P0 C0 _ main Hcap.
    apply capitalizes_true in Hcap. destruct Hcap as (Hq & Hs & Hm & Hc).
    split.
    + intros _. repeat split; try assumption; try reflexivity.
      apply mainRow_not_capitalized.
    + intros Hd. exfalso. revert Hd. apply mainRow_not_capitalized.
  - intros e rest P0 C0 r _ main P1 C1 _ [Hd Hcum]. split.
    + intros Hr. contradiction.
    + intros _. rewrite Hcum. ring.
  - intros e rest P0 C0 r _ main _ [Hd Hcum]. split.
    + intros Hr. contradiction.
    + intros Hm. exfalso. revert Hm. apply mainRow_not_capitalized.
Qed.

Lemma processEvent_agrees e n st :
  StateAgrees (processEvent customer iclStartDate sortedTransactions e n st).
Proof.
  rewrite processEvent_eq. cbv zeta. unfold StateAgrees.
  destruct (capitalizes _ _ _ _);
    cbn [newLedgerRows runningPrincipal cumulativeInterest];
    rewrite rev_app_distr; cbn [rev app].
  - split; reflexivity.
  - split; [reflexivity|].
    destruct (String.eqb _ Capitalized) eqn:Heq; [|reflexivity].
    apply String.eqb_eq in Heq. exfalso. revert Heq.
    apply mainRow_not_capitalized.
Qed.

Lemma ledgerLoop_agrees (dates : list Z) :
  forall st,
    StateAgrees st ->
    StateAgrees (ledgerLoop customer iclStartDate sortedTransactions dates st).
Proof.
  induction dates as [|e rest IH]; intros st Hst; cbn [ledgerLoop];
    [assumption|].
  apply IH, processEvent_agrees.
Qed.

End Capitalization.

(** The sample ledger, its amounts rounded to hundredths: the deposit with
    the interest of the 90 days to the end of the quarter, the one-day period
    that closes the ledger on 2023-06-30, and the capitalization. *)
Example sampleLedger_rows :
  map (fun r =>
         (civilFromDays (LedgerRow.date r), LedgerRow.description r,
          (Qfloor (LedgerRow.principal r * 100 + (1 # 2)),
           Qfloor (LedgerRow.interest r * 100 + (1 # 2)),
           Qfloor (LedgerRow.cumulativeInterest r * 100 + (1 # 2)))))
    sampleLedger =
  [((2023, 4, 1), Deposit, (10000000, 295890, 266301));
   ((2023, 6, 30), InterestPeriod, (10000000, 3288, 269260));
   ((2023, 6, 30), Capitalized, (10269260, 0, 269260))].
Proof. vm_compute. reflexivity. Qed.

(** C1. In every ledger, a capitalization row is never the first row; its
    principal is the principal of the row before it plus the cumulative
    interest of that row, which is positive; it is only pushed in Compound
    mode, on a day that ends a quarter and is not before the day the start
    date parses to (the date [format] writes for the parsed start date); and
    the row after it, when there is one, restarts the cumulative interest
    from zero: it holds the net interest of that row alone. *)
Theorem capitalization_conservation
  (now : Z) (customer : Customer.t) (transactions : list Transaction.t)
  (pre post : list LedgerRow.t) (cap : LedgerRow.t) :
  generateLedger now customer transactions = pre ++ cap :: post ->
  LedgerRow.description cap = Capitalized ->
  exists pre' prev,
    pre = pre' ++ [prev]
    /\ LedgerRow.description prev <> Capitalized
    /\ (LedgerRow.principal cap ==
        LedgerRow.principal prev + LedgerRow.cumulativeInterest prev)%Q
    /\ (0 < LedgerRow.cumulativeInterest prev)%Q
    /\ Customer.interestMethod customer = Compound
    /\ endOfQuarterDay (LedgerRow.date cap) = LedgerRow.date cap
    /\ (exists start,
          Customer.iclStartDate customer = IsoDate start
          /\ format (parseDay start) <= LedgerRow.date cap)
    /\ (forall next post',
          post = next :: post' ->
          (LedgerRow.cumulativeInterest next == LedgerRow.netInterest next)%Q).
Proof.
  intros Hledger Hcap.
  destruct (generateLedger_cases now customer transactions)
    as [Hnil | (start & dates & Hstart & _ & Htrace)].
  { rewrite Hnil in Hledger. now destruct pre. }
  rewrite Htrace in Hledger. clear Htrace.
  set (sorted := sortTransactions _) in *.
  destruct (trace_capitalization customer start sorted dates 0%Q 0%Q)
    as [Hs Hh].
  rewrite Hledger in Hs, Hh.
  destruct pre as [|p0 pre0] using rev_ind.
  { destruct (Hh cap post eq_refl) as [Hd _]. contradiction. }
  clear IHpre0. exists pre0, p0. split; [reflexivity|].
  assert (Hlink : CapitalizationLink customer start p0 cap).
  { eapply Sorted_neighbours; [exact Hs|]. now rewrite <- app_assoc. }
  destruct Hlink as [Hlink _].
  destruct (Hlink Hcap) as (H1 & H2 & H3 & H4 & H5 & H6).
  repeat (split; [assumption|]). split.
  - destruct (Customer.iclStartDate customer) as [|s]; [discriminate|].
    exists s. split; [reflexivity|].
    injection Hstart as <-. exact H6.
  - intros next post' ->.
    assert (Hlink' : CapitalizationLink customer start cap next).
    { eapply Sorted_neighbours; [exact Hs|]. reflexivity. }
    now apply Hlink'.
Qed.

Lemma capitalization_conservation_witness :
  exists pre' prev,
    firstn 2 laterLedger = pre' ++ [prev]
    /\ LedgerRow.description prev <> Capitalized
    /\ (LedgerRow.principal (sampleRow 2 laterLedger) ==
        LedgerRow.principal prev + LedgerRow.cumulativeInterest prev)%Q
    /\ (0 < LedgerRow.cumulativeInterest prev)%Q
    /\ Customer.interestMethod sampleCustomer = Compound
    /\ endOfQuarterDay (LedgerRow.date (sampleRow 2 laterLedger)) =
       LedgerRow.date (sampleRow 2 laterLedger)
    /\ (exists start,
          Customer.iclStartDate sampleCustomer = IsoDate start
          /\ format (parseDay start) <=
             LedgerRow.date (sampleRow 2 laterLedger))
    /\ (LedgerRow.cumulativeInterest (sampleRow 3 laterLedger) ==
        LedgerRow.netInterest (sampleRow 3 laterLedger))%Q.
Proof.
  destruct (capitalization_conservation
              laterNow sampleCustomer sampleTransactions
              (firstn 2 laterLedger) (skipn 3 laterLedger)
              (sampleRow 2 laterLedger))
    as (pre' & prev & H1 & H2 & H3 & H4 & H5 & H6 & H7 & H8).
  - vm_compute. reflexivity.
  - vm_compute. reflexivity.
  - exists pre', prev.
    refine (conj H1 (conj H2 (conj H3 (conj H4 (conj H5 (conj H6
              (conj H7 _))))))).
    apply (H8 (sampleRow 3 laterLedger) (skipn 4 laterLedger)).
    vm_compute. reflexivity.
Defined.

Lemma Sorted_weaken {A : Type} (R R' : A -> A -> Prop) (l : list A) :
  (forall a b, R a b -> R' a b) -> Sorted R l -> Sorted R' l.
Proof.
  intros HR. induction 1 as [|x l Hs IH Hhd]; constructor; [assumption|].
  destruct Hhd; constructor; auto.
Qed.

(** ** Simple mode *)

Section SimpleMode.

Variable customer : Customer.t.
Variable iclStartDate : Z.
Variable sortedTransactions : list Transaction.t.
Hypothesis simple : Customer.interestMethod customer = Simple.

Lemma simple_never_capitalizes e cum :
  capitalizes customer iclStartDate e cum = false.
Proof.
  unfold capitalizes. rewrite simple.
  replace (String.eqb Simple Compound) with false by reflexivity.
  now rewrite andb_false_r.
Qed.

Lemma trace_simple (dates : list Z) (P C : Q) :
  Sorted Accumulates
    (trace customer iclStartDate sortedTransactions dates P C)
  /\ (forall r l,
        trace customer iclStartDate sortedTransactions dates P C = r :: l ->
        RestartsFrom P C dates r).
Proof.
  apply (trace_ind customer iclStartDate sortedTransactions
           Accumulates RestartsFrom (fun _ => True));
    try (intros; exact Logic.I).
  - intros e rest P0 C0 _. split.
    + apply mainRow_not_capitalized.
    + rewrite mainRow_cumulative. reflexivity.
  - intros e rest P0 C0 _ main Hcap.
    rewrite simple_never_capitalizes in Hcap. discriminate.
  - intros e rest P0 C0 r _ main P1 C1 Hcap.
    unfold C1 in Hcap. rewrite simple_never_capitalizes in Hcap. discriminate.
  - intros e rest P0 C0 r _ main _ [Hd Hcum]. split; assumption.
Qed.

End SimpleMode.

(** C6. In Simple mode no row of the ledger is a capitalization, and the
    cumulative interest is never reset: the first row holds its own net
    interest, and every later row holds the cumulative interest of the row
    before it plus its own net interest. *)
Theorem simple_mode_never_capitalizes
  (now : Z) (customer : Customer.t) (transactions : list Transaction.t) :
  Customer.interestMethod customer = Simple ->
  (forall r, In r (generateLedger now customer transactions) ->
             LedgerRow.description r <> Capitalized)
  /\ (forall r l, generateLedger now customer transactions = r :: l ->
        (LedgerRow.cumulativeInterest r == LedgerRow.netInterest r)%Q)
  /\ (forall pre r1 r2 post,
        generateLedger now customer transactions = pre ++ r1 :: r2 :: post ->
        (LedgerRow.cumulativeInterest r2 ==
         LedgerRow.cumulativeInterest r1 + LedgerRow.netInterest r2)%Q).
Proof.
  intros Hsimple.
  destruct (generateLedger_cases now customer transactions)
    as [Hnil | (start & dates & _ & _ & Htrace)].
  { rewrite Hnil. repeat split.
    - intros r [].
    - discriminate.
    - intros [|? ?] ? ? ?; discriminate. }
  rewrite Htrace. clear Htrace.
  set (sorted := sortTransactions _).
  destruct (trace_simple customer start sorted Hsimple dates 0%Q 0%Q)
    as [Hs Hh].
  repeat split.
  - apply (Sorted_all (fun r => LedgerRow.description r <> Capitalized)).
    + eapply Sorted_weaken; [|exact Hs]. intros a b [H _]. exact H.
    + intros r l Heq. now destruct (Hh r l Heq).
  - intros r l Heq. destruct (Hh r l Heq) as [_ Hcum]. rewrite Hcum. ring.
  - intros pre r1 r2 post Heq.
    now destruct (Sorted_neighbours _ _ Hs pre r1 r2 post Heq).
Qed.

Lemma simple_mode_never_capitalizes_witness :
  (forall r,
     In r (generateLedger sampleNow simpleCustomer sampleTransactions) ->
     LedgerRow.description r <> Capitalized)
  /\ (forall r l,
        generateLedger sampleNow simpleCustomer sampleTransactions = r :: l ->
        (LedgerRow.cumulativeInterest r == LedgerRow.netInterest r)%Q)
  /\ (forall pre r1 r2 post,
        generateLedger sampleNow simpleCustomer sampleTransactions =
        pre ++ r1 :: r2 :: post ->
        (LedgerRow.cumulativeInterest r2 ==
         LedgerRow.cumulativeInterest r1 + LedgerRow.netInterest r2)%Q).
Proof.
  apply (simple_mode_never_capitalizes
           sampleNow simpleCustomer sampleTransactions).
  reflexivity.
Defined.

(** ** The two branches of [calculateSimpleInterest] *)

Section SimpleInterest.

Lemma getDaysInYear_cases (year : Z) :
  getDaysInYear year = 365 \/ getDaysInYear year = 366.
Proof. unfold getDaysInYear. destruct (_ || _); auto. Qed.

Lemma inject_Z_pos (z : Z) : 0 < z -> (0 < inject_Z z)%Q.
Proof. intros H. unfold Qlt. simpl. lia. Qed.

Lemma daysInYear_pos (year : Z) : (0 < 100 * inject_Z (getDaysInYear year))%Q.
Proof.
  assert (0 < inject_Z (getDaysInYear year))%Q.
  { apply inject_Z_pos. destruct (getDaysInYear_cases year); lia. }
  lra.
Qed.

Lemma calculateSimpleInterest_positive (principal rate : Q) (days year : Z) :
  (0 < principal)%Q -> 0 < days ->
  calculateSimpleInterest principal rate days year =
  ((principal * rate * inject_Z days) /
   (100 * inject_Z (getDaysInYear year)))%Q.
Proof.
  intros HP Hd. unfold calculateSimpleInterest.
  destruct (Qle_bool principal 0) eqn:Hle.
  - apply Qle_bool_iff in Hle. exfalso. now apply (Qlt_not_le 0 principal).
  - destruct (days <=? 0) eqn:Hdays; [apply Z.leb_le in Hdays; lia|].
    reflexivity.
Qed.

Lemma calculateSimpleInterest_zero (principal rate : Q) (days year : Z) :
  (principal <= 0)%Q \/ days <= 0 ->
  calculateSimpleInterest principal rate days year = 0%Q.
Proof.
  intros H. unfold calculateSimpleInterest.
  destruct (Qle_bool principal 0) eqn:Hle; [reflexivity|].
  destruct (days <=? 0) eqn:Hdays; [reflexivity|].
  apply Z.leb_gt in Hdays. destruct H as [H|H]; [|lia].
  apply Qle_bool_iff in H. congruence.
Qed.

Lemma calculateSimpleInterest_nonneg (principal rate : Q) (days year : Z) :
  (0 <= rate)%Q -> (0 <= calculateSimpleInterest principal rate days year)%Q.
Proof.
  intros Hr.
  destruct (Qlt_le_dec 0 principal) as [HP|HP].
  - destruct (Z_lt_le_dec 0 days) as [Hd|Hd].
    + rewrite calculateSimpleInterest_positive by assumption.
      apply Qle_shift_div_l; [apply daysInYear_pos|].
      rewrite Qmult_0_l.
      apply Qmult_le_0_compat.
      * apply Qmult_le_0_compat; [now apply Qlt_le_weak | assumption].
      * apply Qlt_le_weak, inject_Z_pos. assumption.
    + rewrite calculateSimpleInterest_zero by (right; assumption).
      apply Qle_refl.
  - rewrite calculateSimpleInterest_zero by (left; assumption).
    apply Qle_refl.
Qed.

End SimpleInterest.

(** ** Net interest is never negative *)

Section NetInterest.

Variable customer : Customer.t.
Variable iclStartDate : Z.
Variable sortedTransactions : list Transaction.t.
Hypothesis rate_nonneg : (0 <= Customer.interestRate customer)%Q.
Hypothesis tds_range :
  (0 <= Customer.tdsRate customer)%Q /\ (Customer.tdsRate customer <= 100)%Q.

Lemma mainRow_net_nonneg e n P C :
  (0 <= LedgerRow.netInterest (mainRow customer sortedTransactions e n P C))%Q.
Proof.
  unfold mainRow. cbn [LedgerRow.netInterest].
  set (i := calculateSimpleInterest _ _ _ _).
  assert (Hi : (0 <= i)%Q)
    by (apply calculateSimpleInterest_nonneg; assumption).
  set (t := Customer.tdsRate customer) in *.
  assert (Heq : (i - i * (t / 100) == i * ((100 - t) / 100))%Q) by field.
  rewrite Heq. apply Qmult_le_0_compat; [assumption|].
  apply Qle_shift_div_l; lra.
Qed.

Lemma trace_monotone (dates : list Z) (P C : Q) :
  Sorted Monotone
    (trace customer iclStartDate sortedTransactions dates P C)
  /\ (forall r l,
        trace customer iclStartDate sortedTransactions dates P C = r :: l ->
        AccruesFrom P C dates r).
Proof.
  apply (trace_ind customer iclStartDate sortedTransactions
           Monotone AccruesFrom (fun _ => True));
    try (intros; exact Logic.I).
  - intros e rest P0 C0 _. split; [apply mainRow_net_nonneg|]. split.
    + apply mainRow_not_capitalized.
    + rewrite mainRow_cumulative. reflexivity.
  - intros e rest P0 C0 _ main _. repeat split.
    + cbn. lra.
    + intros _. cbn [capRow LedgerRow.cumulativeInterest]. apply Qle_refl.
    + intros Hd. exfalso. revert Hd. apply mainRow_not_capitalized.
  - intros e rest P0 C0 r _ main P1 C1 _ (Hnet & Hd & Hcum). repeat split.
    + assumption.
    + intros Hne. exfalso. now apply Hne.
    + intros _. rewrite Hcum. ring.
  - intros e rest P0 C0 r _ main _ (Hnet & Hd & Hcum). repeat split.
    + assumption.
    + intros _. rewrite Hcum. lra.
    + intros Hm. exfalso. revert Hm. apply mainRow_not_capitalized.
Qed.

End NetInterest.

(** C7. With a rate that is not negative and a TDS rate between 0 and 100, the
    net interest of every row is not negative, whatever the sign of the
    running principal; from a row that is not a capitalization to the next the
    cumulative interest does not decrease; and the row after a capitalization
    restarts it from zero. *)
Theorem cumulative_interest_monotone
  (now : Z) (customer : Customer.t) (transactions : list Transaction.t) :
  (0 <= Customer.interestRate customer)%Q ->
  (0 <= Customer.tdsRate customer)%Q /\ (Customer.tdsRate customer <= 100)%Q ->
  (forall r, In r (generateLedger now customer transactions) ->
             (0 <= LedgerRow.netInterest r)%Q)
  /\ (forall pre r1 r2 post,
        generateLedger now customer transactions = pre ++ r1 :: r2 :: post ->
        (LedgerRow.description r1 <> Capitalized ->
         (LedgerRow.cumulativeInterest r1 <= LedgerRow.cumulativeInterest r2)%Q)
        /\ (LedgerRow.description r1 = Capitalized ->
            (LedgerRow.cumulativeInterest r2 == LedgerRow.netInterest r2)%Q)).
Proof.
  intros Hrate Htds.
  destruct (generateLedger_cases now customer transactions)
    as [Hnil | (start & dates & _ & _ & Htrace)].
  { rewrite Hnil. split.
    - intros r [].
    - intros [|? ?] ? ? ?; discriminate. }
  rewrite Htrace. clear Htrace.
  set (sorted := sortTransactions _).
  destruct (trace_monotone customer start sorted Hrate Htds dates 0%Q 0%Q)
    as [Hs Hh].
  split.
  - apply (Sorted_all (fun r => (0 <= LedgerRow.netInterest r)%Q)).
    + eapply Sorted_weaken; [|exact Hs]. intros a b [H _]. exact H.
    + intros r l Heq. now destruct (Hh r l Heq).
  - intros pre r1 r2 post Heq.
    destruct (Sorted_neighbours _ _ Hs pre r1 r2 post Heq) as (_ & H1 & H2).
    split; assumption.
Qed.

Lemma cumulative_interest_monotone_witness :
  (forall r,
     In r (generateLedger sampleNow sampleCustomer overRepaidTransactions) ->
     (0 <= LedgerRow.netInterest r)%Q)
  /\ (forall pre r1 r2 post,
        generateLedger sampleNow sampleCustomer overRepaidTransactions =
        pre ++ r1 :: r2 :: post ->
        (LedgerRow.description r1 <> Capitalized ->
         (LedgerRow.cumulativeInterest r1 <= LedgerRow.cumulativeInterest r2)%Q)
        /\ (LedgerRow.description r1 = Capitalized ->
            (LedgerRow.cumulativeInterest r2 == LedgerRow.netInterest r2)%Q)).
Proof.
  apply (cumulative_interest_monotone
           sampleNow sampleCustomer overRepaidTransactions).
  - unfold Qle. simpl. lia.
  - split; unfold Qle; simpl; lia.
Defined.

(** ** Order of the rows *)

Section Ordering.

Variable customer : Customer.t.
Variable iclStartDate : Z.
Variable sortedTransactions : list Transaction.t.

Lemma increasing_next e rest r P C :
  IncreasingDays (e :: rest) -> StartsAt P C rest r ->
  dayOf e < LedgerRow.date r.
Proof.
  intros HI (e' & rest' & -> & ->).
  unfold IncreasingDays in HI. simpl in HI.
  inversion HI as [|? ? _ Hall]; subst. now inversion Hall.
Qed.

Lemma trace_ordered (dates : list Z) (P C : Q) :
  IncreasingDays dates ->
  Sorted Ordered (trace customer iclStartDate sortedTransactions dates P C).
Proof.
  intros HI.
  apply (trace_ind customer iclStartDate sortedTransactions
           Ordered StartsAt IncreasingDays); try assumption.
  - intros e rest H. unfold IncreasingDays in *. simpl in H. now inversion H.
  - intros e rest P0 C0 _. exists e, rest. split; reflexivity.
  - intros e rest P0 C0 _ main _. split.
    + cbn. lia.
    + intros _. split; [apply mainRow_not_capitalized | reflexivity].
  - intros e rest P0 C0 r H main P1 C1 _ Hr.
    pose proof (increasing_next _ _ _ _ _ H Hr) as Hlt.
    split; cbn [capRow LedgerRow.date]; intros; lia.
  - intros e rest P0 C0 r H main _ Hr.
    pose proof (increasing_next _ _ _ _ _ H Hr) as Hlt.
    unfold main. split; rewrite mainRow_date; intros; lia.
Qed.

End Ordering.

(** C9. Along the ledger the dates do not decrease; two neighbouring rows of
    the same date are the row of an event (a deposit, a repayment or an
    interest period) followed by its capitalization, so no deposit or
    repayment comes after another row of its date. *)
Theorem ledger_rows_ordered
  (now : Z) (customer : Customer.t) (transactions : list Transaction.t)
  (pre post : list LedgerRow.t) (r1 r2 : LedgerRow.t) :
  generateLedger now customer transactions = pre ++ r1 :: r2 :: post ->
  LedgerRow.date r1 <= LedgerRow.date r2
  /\ (LedgerRow.date r1 = LedgerRow.date r2 ->
      LedgerRow.description r1 <> Capitalized
      /\ LedgerRow.description r2 = Capitalized
      /\ LedgerRow.description r2 <> Deposit
      /\ LedgerRow.description r2 <> Repayment).
Proof.
  intros Hledger.
  destruct (generateLedger_cases now customer transactions)
    as [Hnil | (start & dates & _ & Hdates & Htrace)].
  { rewrite Hnil in Hledger. now destruct pre. }
  rewrite Htrace in Hledger. clear Htrace.
  set (sorted := sortTransactions _) in *.
  pose proof (trace_ordered customer start sorted dates 0%Q 0%Q Hdates) as Hs.
  destruct (Sorted_neighbours _ _ Hs pre r1 r2 post Hledger) as [Hle Heq].
  split; [assumption|]. intros Hsame.
  destruct (Heq Hsame) as [H1 H2].
  repeat split; try assumption; rewrite H2; discriminate.
Qed.

Lemma ledger_rows_ordered_witness :
  LedgerRow.date (nth 1 sampleLedger (capRow 0 0 0))
  <= LedgerRow.date (nth 2 sampleLedger (capRow 0 0 0))
  /\ (LedgerRow.date (nth 1 sampleLedger (capRow 0 0 0)) =
      LedgerRow.date (nth 2 sampleLedger (capRow 0 0 0)) ->
      LedgerRow.description (nth 1 sampleLedger (capRow 0 0 0)) <> Capitalized
      /\ LedgerRow.description (nth 2 sampleLedger (capRow 0 0 0)) = Capitalized
      /\ LedgerRow.description (nth 2 sampleLedger (capRow 0 0 0)) <> Deposit
      /\ LedgerRow.description (nth 2 sampleLedger (capRow 0 0 0))
         <> Repayment).
Proof.
  apply (ledger_rows_ordered sampleNow sampleCustomer sampleTransactions
           (firstn 1 sampleLedger) (skipn 3 sampleLedger)).
  vm_compute. reflexivity.
Defined.

(** ** What a row carries *)

Section RowContents.

Variable customer : Customer.t.
Variable iclStartDate : Z.
Variable sortedTransactions : list Transaction.t.
Hypothesis amounts_nonneg : forall t,
  In t sortedTransactions ->
  (0 <= Transaction.paid t)%Q /\ (0 <= Transaction.repaid t)%Q.

Lemma fold_sum_nonneg (f : Transaction.t -> Q) (l : list Transaction.t) :
  (forall t, In t l -> (0 <= f t)%Q) ->
  forall acc, (0 <= acc)%Q ->
  (0 <= fold_left (fun a t => (a + f t)%Q) l acc)%Q.
Proof.
  induction l as [|x l IH]; intros Hf acc Hacc; simpl; [assumption|].
  apply IH.
  - intros t Ht. apply Hf. now right.
  - pose proof (Hf x (or_introl eq_refl)). lra.
Qed.

Lemma paidOn_nonneg e : (0 <= paidOn sortedTransactions e)%Q.
Proof.
  unfold paidOn. apply fold_sum_nonneg; [|apply Qle_refl].
  intros t Ht. apply -> filter_In in Ht. now apply amounts_nonneg.
Qed.

Lemma repaidOn_nonneg e : (0 <= repaidOn sortedTransactions e)%Q.
Proof.
  unfold repaidOn. apply fold_sum_nonneg; [|apply Qle_refl].
  intros t Ht. apply -> filter_In in Ht. now apply amounts_nonneg.
Qed.

Lemma Qgt_bool_false (x : Q) : Qgt_bool x 0 = false -> (x <= 0)%Q.
Proof.
  unfold Qgt_bool. rewrite negb_false_iff. apply Qle_bool_iff.
Qed.

Lemma mainRow_carries e n P C :
  Carries (mainRow customer sortedTransactions e n P C).
Proof.
  split.
  - unfold mainRow.
    cbn [LedgerRow.description LedgerRow.paid LedgerRow.repaid].
    pose proof (paidOn_nonneg e) as Hp. pose proof (repaidOn_nonneg e) as Hr.
    destruct (Qgt_bool (paidOn sortedTransactions e) 0) eqn:Hpb;
      [intros H; now contradiction H|].
    destruct (Qgt_bool (repaidOn sortedTransactions e) 0) eqn:Hrb;
      [intros _ H; now contradiction H|].
    apply Qgt_bool_false in Hpb, Hrb. intros _ _.
    split; apply Qle_antisym; assumption.
  - intros H. exfalso. revert H. apply mainRow_not_capitalized.
Qed.

Lemma capRow_carries e P1 C1 : Carries (capRow e P1 C1).
Proof. split; intros; cbn; repeat split; reflexivity. Qed.

Lemma trace_carries (dates : list Z) (P C : Q) :
  forall r,
    In r (trace customer iclStartDate sortedTransactions dates P C) ->
    Carries r.
Proof.
  destruct (trace_ind customer iclStartDate sortedTransactions
              (fun _ r => Carries r) (fun _ _ _ r => Carries r)
              (fun _ => True)) with (dates := dates) (P := P) (C := C)
    as [Hs Hh]; try (intros; exact Logic.I).
  - intros. apply mainRow_carries.
  - intros. apply capRow_carries.
  - intros; assumption.
  - intros; assumption.
  - apply Sorted_all; assumption.
Qed.

End RowContents.

(** C8, as the code has it. With amounts that are not negative, the amount
    paid and the amount repaid of a row are zero unless the row is a deposit
    or a repayment, and the interest, the TDS and the net interest of a
    capitalization row are zero. *)
Theorem row_contents
  (now : Z) (customer : Customer.t) (transactions : list Transaction.t) :
  (forall t, In t transactions ->
             (0 <= Transaction.paid t)%Q /\ (0 <= Transaction.repaid t)%Q) ->
  forall r, In r (generateLedger now customer transactions) ->
    (LedgerRow.description r <> Deposit ->
     LedgerRow.description r <> Repayment ->
     (LedgerRow.paid r == 0)%Q /\ (LedgerRow.repaid r == 0)%Q)
    /\ (LedgerRow.description r = Capitalized ->
        (LedgerRow.interest r == 0)%Q /\ (LedgerRow.tds r == 0)%Q
        /\ (LedgerRow.netInterest r == 0)%Q).
Proof.
  intros Hnonneg r Hr.
  destruct (generateLedger_cases now customer transactions)
    as [Hnil | (start & dates & _ & _ & Htrace)].
  { rewrite Hnil in Hr. destruct Hr. }
  rewrite Htrace in Hr.
  eapply trace_carries; [|exact Hr].
  intros t Ht. apply -> sortTransactions_In in Ht. apply -> filter_In in Ht.
  apply Hnonneg. tauto.
Qed.

Lemma row_contents_witness :
  (LedgerRow.description (nth 1 sampleLedger (capRow 0 0 0)) <> Deposit ->
   LedgerRow.description (nth 1 sampleLedger (capRow 0 0 0)) <> Repayment ->
   (LedgerRow.paid (nth 1 sampleLedger (capRow 0 0 0)) == 0)%Q
   /\ (LedgerRow.repaid (nth 1 sampleLedger (capRow 0 0 0)) == 0)%Q)
  /\ (LedgerRow.description (nth 1 sampleLedger (capRow 0 0 0)) = Capitalized ->
      (LedgerRow.interest (nth 1 sampleLedger (capRow 0 0 0)) == 0)%Q
      /\ (LedgerRow.tds (nth 1 sampleLedger (capRow 0 0 0)) == 0)%Q
      /\ (LedgerRow.netInterest (nth 1 sampleLedger (capRow 0 0 0)) == 0)%Q).
Proof.
  apply (row_contents sampleNow sampleCustomer sampleTransactions).
  - intros t [<-|[]]. split; unfold Qle; simpl; lia.
  - vm_compute. right. left. reflexivity.
Defined.

(** C8, as the specification states it, fails on the sample account: its
    opening row is a deposit that also carries the interest of the period
    that starts on its date. *)
Lemma row_contents_counterexample :
  exists r,
    In r sampleLedger
    /\ LedgerRow.description r = Deposit
    /\ (0 < LedgerRow.paid r)%Q
    /\ (0 < LedgerRow.interest r)%Q
    /\ (0 < LedgerRow.tds r)%Q
    /\ (0 < LedgerRow.netInterest r)%Q.
Proof.
  exists (nth 0 sampleLedger (capRow 0 0 0)).
  split; [vm_compute; left; reflexivity|].
  repeat split; vm_compute; reflexivity.
Qed.

(** ** The interest of a period *)

Lemma rem_zero_divide (year d : Z) :
  d <> 0 -> (Z.rem year d =? 0) = true <-> (d | year).
Proof. intros Hd. rewrite Z.eqb_eq. now apply Z.rem_divide. Qed.

Lemma getDaysInYear_leap (year : Z) :
  (isLeapYear year -> getDaysInYear year = 366)
  /\ (~ isLeapYear year -> getDaysInYear year = 365).
Proof.
  unfold isLeapYear, getDaysInYear.
  pose proof (rem_zero_divide year 4 ltac:(lia)) as H4.
  pose proof (rem_zero_divide year 100 ltac:(lia)) as H100.
  pose proof (rem_zero_divide year 400 ltac:(lia)) as H400.
  destruct (Z.rem year 4 =? 0), (Z.rem year 100 =? 0), (Z.rem year 400 =? 0);
    cbn [andb orb negb]; split; intros H; try reflexivity; exfalso;
    try (apply H; tauto);
    destruct H as [[Ha Hb]|Hc];
    try (apply H4 in Ha; discriminate);
    try (apply H400 in Hc; discriminate);
    try (apply Hb; tauto).
Qed.

(** C2, as the code has it. The row an event pushes carries the interest of
    the period that starts on its date: with a running principal above zero,
    principal x rate x days / (100 x days in the year of the event date), the
    days being those up to the next event date, or 1 after the last event;
    with a running principal of zero or less, no interest.  The year has 366
    days when it is a leap year and 365 otherwise, and 100000 at 12 percent
    over 30 days gives 986.30 in 2023 and 983.61 in 2024. *)
Theorem interest_formula
  (customer : Customer.t) (iclStartDate : Z)
  (sortedTransactions : list Transaction.t)
  (eventDate : Z) (nextEventDate : option Z) (st : LoopState) :
  let days :=
    match nextEventDate with
    | Some next => differenceInDays next eventDate
    | None => 1
    end in
  let daysInYear := getDaysInYear (getYear eventDate) in
  exists row tail,
    newLedgerRows
      (processEvent customer iclStartDate sortedTransactions
         eventDate nextEventDate st) =
    newLedgerRows st ++ row :: tail
    /\ ((0 < LedgerRow.principal row)%Q -> 0 < days ->
        (LedgerRow.interest row ==
         LedgerRow.principal row * Customer.interestRate customer
         * inject_Z days / (100 * inject_Z daysInYear))%Q)
    /\ ((LedgerRow.principal row <= 0)%Q -> (LedgerRow.interest row == 0)%Q)
    /\ (forall year,
          (isLeapYear year -> getDaysInYear year = 366)
          /\ (~ isLeapYear year -> getDaysInYear year = 365))
    /\ getDaysInYear 2023 = 365
    /\ roundCents (calculateSimpleInterest 100000 12 30 2023) = 98630
    /\ getDaysInYear 2024 = 366
    /\ roundCents (calculateSimpleInterest 100000 12 30 2024) = 98361.
Proof.
  intros days daysInYear. rewrite processEvent_eq. cbv zeta.
  set (main := mainRow customer sortedTransactions eventDate nextEventDate
                 (runningPrincipal st) (cumulativeInterest st)).
  assert (Hint : LedgerRow.interest main =
                 calculateSimpleInterest (LedgerRow.principal main)
                   (Customer.interestRate customer) days (getYear eventDate))
    by reflexivity.
  exists main.
  exists (if capitalizes customer iclStartDate eventDate
               (LedgerRow.cumulativeInterest main)
          then [capRow eventDate (LedgerRow.principal main)
                  (LedgerRow.cumulativeInterest main)]
          else []).
  split; [destruct (capitalizes _ _ _ _); reflexivity|].
  split; [|split].
  - intros HP Hd. rewrite Hint.
    rewrite calculateSimpleInterest_positive by assumption. reflexivity.
  - intros HP. rewrite Hint.
    rewrite calculateSimpleInterest_zero by (left; assumption). reflexivity.
  - split; [exact getDaysInYear_leap|].
    repeat split; vm_compute; reflexivity.
Qed.

(** C2, as the specification states it, fails after an over-repayment: in the
    sample the repayment row holds a principal of -100 over the 60 days to
    the next event, and the interest-period row that follows holds it over the
    closing period of one day; both carry no interest, where the formula gives
    a negative amount. *)
Lemma interest_formula_counterexample :
  let ledger :=
    generateLedger sampleNow sampleCustomer overRepaidTransactions in
  let row := nth 1 ledger (capRow 0 0 0) in
  let next := nth 2 ledger (capRow 0 0 0) in
  LedgerRow.description row = Repayment
  /\ LedgerRow.description next = InterestPeriod
  /\ (LedgerRow.principal row == -100)%Q
  /\ (LedgerRow.principal next == -100)%Q
  /\ LedgerRow.date next - LedgerRow.date row = 60
  /\ fst (fst (civilFromDays (LedgerRow.date row))) = 2023
  /\ (LedgerRow.interest row == 0)%Q
  /\ (LedgerRow.interest next == 0)%Q
  /\ ~ (LedgerRow.interest row ==
        LedgerRow.principal row * Customer.interestRate sampleCustomer
        * inject_Z 60 / (100 * inject_Z (getDaysInYear 2023)))%Q
  /\ ~ (LedgerRow.interest next ==
        LedgerRow.principal next * Customer.interestRate sampleCustomer
        * inject_Z 1 / (100 * inject_Z (getDaysInYear 2023)))%Q.
Proof.
  cbv zeta. repeat split; try (vm_compute; reflexivity);
    vm_compute; discriminate.
Qed.

(** ** The clock *)

(** C3, as the code has it. The ledger is a function of the account, the
    transactions and the day the clock shows at the call; with an end date it
    does not depend on the clock at all. *)
Theorem ledger_deterministic
  (now1 now2 : Z) (customer : Customer.t) (transactions : list Transaction.t) :
  Customer.iclEndDate customer <> NoDate \/ startOfDay now1 = startOfDay now2 ->
  generateLedger now1 customer transactions =
  generateLedger now2 customer transactions.
Proof.
  intros H. unfold generateLedger, buildEventDates.
  destruct (Customer.iclEndDate customer) as [|e] eqn:Hend.
  - destruct H as [H|H]; [now contradiction H|].
    cbn [parseDate]. now rewrite H.
  - reflexivity.
Qed.

Lemma ledger_deterministic_witness :
  generateLedger sampleNow closedCustomer sampleTransactions =
  generateLedger laterNow closedCustomer sampleTransactions
  /\ generateLedger sampleNow sampleCustomer sampleTransactions =
     generateLedger (sampleNow + 1) sampleCustomer sampleTransactions.
Proof.
  split.
  - apply (ledger_deterministic sampleNow laterNow closedCustomer
             sampleTransactions).
    left. discriminate.
  - apply (ledger_deterministic sampleNow (sampleNow + 1) sampleCustomer
             sampleTransactions).
    right. vm_compute. reflexivity.
Defined.

(** C3, as the specification states it, fails: without an end date the same
    account and transactions give one ledger on 2023-07-01 and another on
    2023-10-02, the date being read from the clock inside the engine. *)
Lemma ledger_deterministic_counterexample :
  Customer.iclEndDate sampleCustomer = NoDate
  /\ List.length (generateLedger sampleNow sampleCustomer sampleTransactions)
     = 3%nat
  /\ List.length (generateLedger laterNow sampleCustomer sampleTransactions)
     = 5%nat
  /\ generateLedger sampleNow sampleCustomer sampleTransactions <>
     generateLedger laterNow sampleCustomer sampleTransactions.
Proof.
  split; [reflexivity|]. split; [vm_compute; reflexivity|].
  split; [vm_compute; reflexivity|].
  intros H. apply (f_equal (@List.length _)) in H. vm_compute in H.
  discriminate.
Qed.

(** ** The early exits *)

(** C4, as the code has it. When no transaction is left after the filter on
    the end date, the engine returns the empty ledger. *)
Theorem empty_timeline
  (now : Z) (customer : Customer.t) (transactions : list Transaction.t) :
  filter (notAfterEnd (parseDate (Customer.iclEndDate customer))) transactions
  = [] ->
  generateLedger now customer transactions = [].
Proof.
  intros H. unfold generateLedger. rewrite H.
  destruct (parseDate (Customer.iclStartDate customer)); [|reflexivity].
  destruct (negb _ || _); reflexivity.
Qed.

Lemma empty_timeline_witness :
  generateLedger sampleNow closedCustomer lateTransactions = [].
Proof.
  apply (empty_timeline sampleNow closedCustomer lateTransactions).
  vm_compute. reflexivity.
Defined.

(** C4, as the specification states it, fails: the result for an account whose
    only transaction is after the end date is the plain empty ledger, the
    very value returned for an account with no transaction at all and for
    one without a start date. *)
Lemma empty_timeline_counterexample :
  lateTransactions <> []
  /\ filter (notAfterEnd (parseDate (Customer.iclEndDate closedCustomer)))
       lateTransactions = []
  /\ generateLedger sampleNow closedCustomer lateTransactions = []
  /\ generateLedger sampleNow closedCustomer lateTransactions =
     generateLedger sampleNow closedCustomer []
  /\ generateLedger sampleNow closedCustomer lateTransactions =
     generateLedger sampleNow
       (Customer.mk NoDate NoDate Compound (RateNumber 12) 10%Q)
       lateTransactions.
Proof.
  split; [discriminate|]. repeat split; vm_compute; reflexivity.
Qed.

(** C5, as the code has it. Without a start date that parses, the engine
    returns the empty ledger: no row is produced. *)
Theorem missing_start_date
  (now : Z) (customer : Customer.t) (transactions : list Transaction.t) :
  Customer.iclStartDate customer = NoDate ->
  generateLedger now customer transactions = [].
Proof. intros H. unfold generateLedger. now rewrite H. Qed.

Lemma missing_start_date_witness :
  generateLedger sampleNow
    (Customer.mk NoDate NoDate Compound (RateNumber 12) 10%Q)
    sampleTransactions = [].
Proof.
  apply (missing_start_date sampleNow
           (Customer.mk NoDate NoDate Compound (RateNumber 12) 10%Q)
           sampleTransactions).
  reflexivity.
Defined.

(** C5, as the specification states it, fails: a negative rate, a negative
    TDS rate and an end date before the start date all go through the
    engine, which pushes rows for them. *)
Lemma invalid_terms_counterexample :
  (exists r,
     In r (generateLedger sampleNow negativeRateCustomer sampleTransactions)
     /\ (LedgerRow.interest r < 0)%Q)
  /\ (exists r,
       In r (generateLedger sampleNow negativeTdsCustomer sampleTransactions)
       /\ (LedgerRow.tds r < 0)%Q)
  /\ (exists r,
       In r (generateLedger sampleNow endBeforeStartCustomer earlyTransactions)
       /\ (0 < LedgerRow.interest r)%Q).
Proof.
  split; [|split].
  - exists (nth 0 (generateLedger sampleNow negativeRateCustomer
                     sampleTransactions) (capRow 0 0 0)).
    split; [vm_compute; left; reflexivity | vm_compute; reflexivity].
  - exists (nth 0 (generateLedger sampleNow negativeTdsCustomer
                     sampleTransactions) (capRow 0 0 0)).
    split; [vm_compute; left; reflexivity | vm_compute; reflexivity].
  - exists (nth 0 (generateLedger sampleNow endBeforeStartCustomer
                     earlyTransactions) (capRow 0 0 0)).
    split; [vm_compute; left; reflexivity | vm_compute; reflexivity].
Qed.

(** ** More on the rows of a trace *)

Section TraceRows.

Variable customer : Customer.t.
Variable iclStartDate : Z.
Variable sortedTransactions : list Transaction.t.

Lemma trace_all (Pr : LedgerRow.t -> Prop) :
  (forall e n P C, Pr (mainRow customer sortedTransactions e n P C)) ->
  (forall e P1 C1, Pr (capRow e P1 C1)) ->
  forall dates P C r,
    In r (trace customer iclStartDate sortedTransactions dates P C) -> Pr r.
Proof.
  intros Hm Hc dates.
  induction dates as [|e rest IH]; intros P C r Hin; [destruct Hin|].
  rewrite trace_cons in Hin. cbv zeta in Hin.
  destruct (capitalizes _ _ _ _).
  - destruct Hin as [<-|[<-|Hin]]; [apply Hm | apply Hc | eapply IH; eauto].
  - destruct Hin as [<-|Hin]; [apply Hm | eapply IH; eauto].
Qed.

Lemma trace_dates (dates : list Z) :
  forall P C r,
    In r (trace customer iclStartDate sortedTransactions dates P C) ->
    In (LedgerRow.date r) (map dayOf dates).
Proof.
  induction dates as [|e rest IH]; intros P C r Hin; [destruct Hin|].
  rewrite trace_cons in Hin. cbv zeta in Hin. cbn [map].
  destruct (capitalizes _ _ _ _).
  - destruct Hin as [<-|[<-|Hin]];
      [left; reflexivity | left; reflexivity | right; eapply IH; eauto].
  - destruct Hin as [<-|Hin]; [left; reflexivity | right; eapply IH; eauto].
Qed.

Lemma trace_covers (dates : list Z) :
  forall P C e,
    In e dates ->
    exists r,
      In r (trace customer iclStartDate sortedTransactions dates P C)
      /\ LedgerRow.date r = dayOf e
      /\ LedgerRow.description r <> Capitalized.
Proof.
  induction dates as [|e0 rest IH]; intros P C e Hin; [destruct Hin|].
  rewrite trace_cons. cbv zeta.
  destruct Hin as [->|Hin].
  - exists (mainRow customer sortedTransactions e (hd_error rest) P C).
    split; [|split; [reflexivity | apply mainRow_not_capitalized]].
    destruct (capitalizes _ _ _ _); left; reflexivity.
  - destruct (capitalizes _ _ _ _);
      match goal with
      | |- context [trace _ _ _ rest ?P' ?C'] =>
          destruct (IH P' C' e Hin) as (r & Hr & Hd & Hc)
      end;
      exists r; (split; [|split; assumption]).
    + right; right; exact Hr.
    + right; exact Hr.
Qed.

(** The condition of the capitalization test, read off a row. *)
Lemma capitalizes_of_row e n P C :
  let main := mainRow customer sortedTransactions e n P C in
  Customer.interestMethod customer = Compound ->
  endOfQuarterDay (LedgerRow.date main) = LedgerRow.date main ->
  dayOf iclStartDate <= LedgerRow.date main ->
  (0 < LedgerRow.cumulativeInterest main)%Q ->
  capitalizes customer iclStartDate e (LedgerRow.cumulativeInterest main)
  = true.
Proof.
  intros main Hm Hq Hs Hc. apply capitalizes_spec.
  unfold main in Hq, Hs. rewrite mainRow_date in Hq, Hs.
  repeat split; try assumption.
  destruct (Z.lt_ge_cases iclStartDate e) as [Hlt|Hge]; [now left|].
  right. apply dayOf_monotone in Hge. lia.
Qed.

Lemma trace_capitalizes_after (dates : list Z) :
  forall P C pre r post,
    trace customer iclStartDate sortedTransactions dates P C
    = pre ++ r :: post ->
    LedgerRow.description r <> Capitalized ->
    Customer.interestMethod customer = Compound ->
    endOfQuarterDay (LedgerRow.date r) = LedgerRow.date r ->
    dayOf iclStartDate <= LedgerRow.date r ->
    (0 < LedgerRow.cumulativeInterest r)%Q ->
    exists cap post',
      post = cap :: post'
      /\ LedgerRow.description cap = Capitalized
      /\ LedgerRow.date cap = LedgerRow.date r
      /\ (LedgerRow.principal cap ==
          LedgerRow.principal r + LedgerRow.cumulativeInterest r)%Q.
Proof.
  induction dates as [|e rest IH]; intros P C pre r post Heq Hd Hm Hq Hs Hc.
  { now destruct pre. }
  rewrite trace_cons in Heq. cbv zeta in Heq.
  set (main := mainRow customer sortedTransactions e (hd_error rest) P C) in *.
  destruct pre as [|x pre].
  - cbn [app] in Heq.
    assert (Hr : r = main)
      by (destruct (capitalizes _ _ _ _); now injection Heq).
    subst r.
    pose proof (capitalizes_of_row e (hd_error rest) P C Hm Hq Hs Hc) as Hcap.
    fold main in Hcap. rewrite Hcap in Heq.
    injection Heq as <-. eexists. eexists. split; [reflexivity|].
    repeat split; reflexivity.
  - cbn [app] in Heq.
    destruct (capitalizes _ _ _ _).
    + injection Heq as _ Heq. destruct pre as [|y pre].
      * cbn [app] in Heq. injection Heq as Hcap _. subst r.
        exfalso. now apply Hd.
      * cbn [app] in Heq. injection Heq as _ Heq. eapply IH; eauto.
    + injection Heq as _ Heq. eapply IH; eauto.
Qed.





End TraceRows.

(** ** More calendar facts: quarter ends *)

Section QuarterEnds.

Lemma yearOfEra_inverse (yoe doy : Z) :
  0 <= yoe <= 399 -> 0 <= doy <= 364 ->
  let doe := 365 * yoe + yoe / 4 - yoe / 100 + doy in
  0 <= doe < 146097
  /\ (doe - doe / 1460 + doe / 36524 - doe / 146096) / 365 = yoe.
Proof.
  intros Hy Hd doe. subst doe. split; Z.div_mod_to_equations; lia.
Qed.

Lemma civilFromDays_marchDay (era yoe doy : Z) :
  0 <= yoe <= 399 -> 0 <= doy <= 364 ->
  civilFromDays (marchDay era yoe doy) =
  let mp := (5 * doy + 2) / 153 in
  let m := if mp <? 10 then mp + 3 else mp - 9 in
  (if m <=? 2 then yoe + era * 400 + 1 else yoe + era * 400,
   m, doy - (153 * mp + 2) / 5 + 1).
Proof.
  intros Hy Hd.
  destruct (yearOfEra_inverse yoe doy Hy Hd) as [Hdoe Hyoe].
  cbv zeta in Hdoe, Hyoe.
  unfold civilFromDays, marchDay, daysPerEra, epochShift. cbv zeta.
  set (doe := 365 * yoe + yoe / 4 - yoe / 100 + doy) in *.
  replace (era * 146097 + doe - 719468 + 719468) with (doe + era * 146097)
    by lia.
  rewrite Z.div_add, Z.mod_add by lia.
  rewrite (Z.div_small doe 146097), (Z.mod_small doe 146097) by lia.
  rewrite Hyoe. cbn [Z.add].
  replace (doe - (365 * yoe + yoe / 4 - yoe / 100)) with doy
    by (subst doe; lia).
  reflexivity.
Qed.

Lemma endOfQuarterDay_cases (z : Z) :
  exists era yoe doy,
    0 <= yoe <= 399 /\ 0 <= doy <= 365
    /\ z = marchDay era yoe doy
    /\ ((doy <= 30 /\ endOfQuarterDay z = marchDay era yoe 30)
        \/ (30 < doy <= 121 /\ endOfQuarterDay z = marchDay era yoe 121)
        \/ (121 < doy <= 213 /\ endOfQuarterDay z = marchDay era yoe 213)
        \/ (213 < doy <= 305 /\ endOfQuarterDay z = marchDay era yoe 305)
        \/ (305 < doy
            /\ endOfQuarterDay z =
               marchDay ((yoe + era * 400 + 1) / 400)
                 ((yoe + era * 400 + 1) mod 400) 30)).
Proof.
  unfold endOfQuarterDay, civilFromDays, lastDayBeforeMonth, daysFromCivil,
    marchDay, daysPerEra, epochShift.
  cbv zeta.
  set (z0 := z + 719468).
  assert (Hdoe : 0 <= z0 mod 146097 < 146097) by (apply Z.mod_pos_bound; lia).
  assert (Hz : z0 = 146097 * (z0 / 146097) + z0 mod 146097)
    by (apply Z.div_mod; lia).
  set (era := z0 / 146097) in *. set (doe := z0 mod 146097) in *.
  pose proof (yearOfEra_bounds doe Hdoe) as Hy. cbv zeta in Hy.
  set (yoe := (doe - doe / 1460 + doe / 36524 - doe / 146096) / 365) in *.
  set (doy := doe - (365 * yoe + yoe / 4 - yoe / 100)) in *.
  assert (Hdoe' : doe = 365 * yoe + yoe / 4 - yoe / 100 + doy)
    by (subst doy; lia).
  exists era, yoe, doy.
  clearbody doy. clearbody yoe. clearbody doe. clearbody era.
  destruct Hy as [Hy1 Hy2].
  split; [assumption|]. split; [assumption|]. split; [lia|].
  assert (Hmp : 0 <= (5 * doy + 2) / 153 <= 11)
    by (Z.div_mod_to_equations; lia).
  assert (Hmp2 : 153 * ((5 * doy + 2) / 153) <= 5 * doy + 2
                 < 153 * ((5 * doy + 2) / 153) + 153)
    by (Z.div_mod_to_equations; lia).
  set (mp := (5 * doy + 2) / 153) in *. clearbody mp.
  assert (Hc : mp = 0 \/ mp = 1 \/ mp = 2 \/ mp = 3 \/ mp = 4 \/ mp = 5 \/
               mp = 6 \/ mp = 7 \/ mp = 8 \/ mp = 9 \/ mp = 10 \/ mp = 11)
    by lia.
  repeat (destruct Hc as [Hc|Hc]); subst mp; cbn -[Z.div Z.modulo Z.mul].
  all: first
    [ left; split; [lia|]; Z.div_mod_to_equations; lia
    | right; left; split; [lia|]; Z.div_mod_to_equations; lia
    | right; right; left; split; [lia|]; Z.div_mod_to_equations; lia
    | right; right; right; left; split; [lia|]; Z.div_mod_to_equations; lia
    | right; right; right; right; split; [lia|]; Z.div_mod_to_equations; lia ].
Qed.

Lemma endOfQuarterDay_marchDay (z : Z) :
  exists era yoe doy,
    0 <= yoe <= 399
    /\ (doy = 30 \/ doy = 121 \/ doy = 213 \/ doy = 305)
    /\ endOfQuarterDay z = marchDay era yoe doy.
Proof.
  destruct (endOfQuarterDay_cases z)
    as (era & yoe & doy & Hy & Hd & _ & Hcase).
  assert (Hyn : 0 <= (yoe + era * 400 + 1) mod 400 <= 399)
    by (pose proof (Z.mod_pos_bound (yoe + era * 400 + 1) 400); lia).
  destruct Hcase as [[_ H]|[[_ H]|[[_ H]|[[_ H]|[_ H]]]]];
    rewrite H; eexists; eexists; eexists;
    (split; [|split; [|reflexivity]]); try eassumption; tauto.
Qed.

Lemma endOfQuarterDay_idempotent (z : Z) :
  endOfQuarterDay (endOfQuarterDay z) = endOfQuarterDay z.
Proof.
  destruct (endOfQuarterDay_marchDay z) as (era & yoe & doy & Hy & Hd & Heq).
  rewrite Heq. unfold endOfQuarterDay.
  rewrite civilFromDays_marchDay by lia. cbv zeta.
  unfold lastDayBeforeMonth, daysFromCivil, marchDay, daysPerEra, epochShift.
  destruct Hd as [ -> | [ -> | [ -> | -> ] ] ];
    match goal with
    | |- context [(5 * ?d + 2) / 153] =>
        let v := eval vm_compute in ((5 * d + 2) / 153) in
        change ((5 * d + 2) / 153) with v
    end;
    cbn -[Z.div Z.modulo Z.mul]; Z.div_mod_to_equations; lia.
Qed.


Lemma marchDay_yearStart (era yoe doy : Z) :
  0 <= yoe <= 399 ->
  marchDay era yoe doy = yearStart (yoe + era * 400) + doy - 719468.
Proof.
  intros Hy. unfold marchDay, yearStart.
  rewrite Z.div_add, Z.mod_add by lia.
  rewrite (Z.div_small yoe 400), (Z.mod_small yoe 400) by lia. lia.
Qed.

Lemma yearStart_step (Y : Z) : yearStart Y + 365 <= yearStart (Y + 1).
Proof. unfold yearStart. Z.div_mod_to_equations. lia. Qed.

Lemma yearStart_le (Y Y' : Z) : Y <= Y' -> yearStart Y <= yearStart Y'.
Proof.
  intros H. replace Y' with (Y + Z.of_nat (Z.to_nat (Y' - Y))) by lia.
  generalize (Z.to_nat (Y' - Y)) as k. intros k.
  induction k as [|k IH]; [rewrite Z.add_0_r; lia|].
  replace (Y + Z.of_nat (S k)) with (Y + Z.of_nat k + 1) by lia.
  pose proof (yearStart_step (Y + Z.of_nat k)). lia.
Qed.

Lemma yearStart_lt (Y Y' : Z) : Y < Y' -> yearStart Y + 365 <= yearStart Y'.
Proof.
  intros H. pose proof (yearStart_step Y).
  pose proof (yearStart_le (Y + 1) Y' ltac:(lia)). lia.
Qed.

(** The end of the quarter of [z] is the first quarter end from [z] on. *)
Lemma endOfQuarterDay_least (z q : Z) :
  z <= q -> endOfQuarterDay q = q -> endOfQuarterDay z <= q.
Proof.
  intros Hzq Hq.
  destruct (endOfQuarterDay_marchDay q)
    as (era' & yoe' & dq & Hy' & Hdq & Heq').
  rewrite Hq in Heq'.
  destruct (endOfQuarterDay_cases z)
    as (era & yoe & doy & Hy & Hd & Hz & Hcase).
  assert (Hyn : 0 <= (yoe + era * 400 + 1) mod 400 <= 399)
    by (pose proof (Z.mod_pos_bound (yoe + era * 400 + 1) 400); lia).
  rewrite marchDay_yearStart in Hz, Heq' by assumption.
  assert (Hnext : marchDay ((yoe + era * 400 + 1) / 400)
                    ((yoe + era * 400 + 1) mod 400) 30
                  = yearStart (yoe + era * 400 + 1) + 30 - 719468).
  { rewrite marchDay_yearStart by assumption. f_equal. f_equal. f_equal.
    pose proof (Z.div_mod (yoe + era * 400 + 1) 400 ltac:(lia)). lia. }
  rewrite Hnext in Hcase. rewrite !marchDay_yearStart in Hcase by assumption.
  set (Y := yoe + era * 400) in *. set (Y' := yoe' + era' * 400) in *.
  destruct (Z.lt_trichotomy Y Y') as [Hlt|[Heq|Hgt]].
  - pose proof (yearStart_lt Y Y' Hlt) as Hys.
    pose proof (yearStart_le (Y + 1) Y' ltac:(lia)) as Hys1.
    destruct Hcase as [[Hr H]|[[Hr H]|[[Hr H]|[[Hr H]|[Hr H]]]]]; lia.
  - rewrite Heq in *.
    destruct Hcase as [[Hr H]|[[Hr H]|[[Hr H]|[[Hr H]|[Hr H]]]]]; lia.
  - pose proof (yearStart_lt Y' Y Hgt). lia.
Qed.

End QuarterEnds.

(** ** The event dates of a run *)

Section EventDateMembership.

Lemma setAdd_In (s : list Z) (x y : Z) :
  In y (setAdd s x) <-> In y s \/ y = x.
Proof.
  unfold setAdd. destruct (existsb (Z.eqb x) s) eqn:Hex.
  - apply existsb_exists in Hex. destruct Hex as (z & Hz & Heq).
    apply Z.eqb_eq in Heq. subst z. intuition (subst; assumption).
  - rewrite in_app_iff. cbn [In]. intuition.
Qed.

Lemma fold_setAdd_In (xs : list Z) :
  forall s y, In y (fold_left setAdd xs s) <-> In y s \/ In y xs.
Proof.
  induction xs as [|x xs IH]; intros s y; cbn [fold_left In]; [tauto|].
  rewrite IH, setAdd_In. intuition.
Qed.

Lemma quarterBody_In (first last cur : Z) (ev : list Z) (y : Z) :
  In y (quarterBody first last cur ev) <->
  In y ev
  \/ (y = dayOf (endOfQuarter cur)
      /\ endOfQuarter cur <= last /\ first <= endOfQuarter cur).
Proof.
  unfold quarterBody, isAfter, isBefore.
  destruct (last <? endOfQuarter cur) eqn:H1;
    destruct (endOfQuarter cur <? first) eqn:H2; cbn [negb andb];
    rewrite ?setAdd_In;
    try apply Z.ltb_lt in H1; try apply Z.ltb_ge in H1;
    try apply Z.ltb_lt in H2; try apply Z.ltb_ge in H2;
    intuition lia.
Qed.

Lemma quarterLoop_incl (fuel : nat) (first last : Z) :
  forall cur ev y, In y ev -> In y (quarterLoop fuel first last cur ev).
Proof.
  induction fuel as [|fuel IH]; intros cur ev y Hy; cbn [quarterLoop];
    [assumption|].
  destruct (negb (isAfter cur last)); [|assumption].
  apply IH. apply quarterBody_In. now left.
Qed.

Lemma quarterLoop_In (fuel : nat) (first last : Z) :
  forall cur ev y,
    In y (quarterLoop fuel first last cur ev) ->
    In y ev
    \/ exists c,
         y = dayOf (endOfQuarter c)
         /\ endOfQuarter c <= last /\ first <= endOfQuarter c.
Proof.
  induction fuel as [|fuel IH]; intros cur ev y Hy; cbn [quarterLoop] in Hy;
    [now left|].
  destruct (negb (isAfter cur last)); [|now left].
  apply IH in Hy. destruct Hy as [Hy|Hy]; [|now right].
  apply quarterBody_In in Hy. destruct Hy as [Hy|Hy]; [now left|].
  right. now exists cur.
Qed.

Lemma dayOf_addDays_endOfQuarter (t : Z) :
  dayOf (addDays (endOfQuarter t) 1) = endOfQuarterDay (dayOf t) + 1.
Proof.
  unfold addDays, endOfQuarter. generalize (endOfQuarterDay (dayOf t)).
  intros q. unfold dayOf, dayStart, msPerDay.
  symmetry. apply (Z.div_unique _ _ (q + 1) (86400000 - 1)); lia.
Qed.

(** Every quarter end from the day of [cur] to the day before the last
    possible date is added by the loop. *)
Lemma quarterLoop_covers (fuel : nat) (first last : Z) :
  DayAligned last ->
  forall cur ev q,
    (last - cur) / msPerDay + 1 <= Z.of_nat fuel ->
    first <= cur ->
    endOfQuarterDay q = q ->
    dayOf cur <= q < dayOf last ->
    In q (quarterLoop fuel first last cur ev).
Proof.
  intros Hlast.
  assert (Hexit : forall cur q,
             last < cur -> dayOf cur <= q < dayOf last -> False).
  { intros cur q Hlt Hq.
    pose proof (dayOf_monotone last cur ltac:(lia)). lia. }
  induction fuel as [|fuel IH]; intros cur ev q Hfuel Hfirst Hqe Hq.
  - exfalso. apply (Hexit cur q); [|assumption].
    unfold msPerDay in Hfuel.
    destruct (Z.lt_ge_cases last cur) as [|Hle]; [assumption|].
    assert (0 <= (last - cur) / 86400000) by (apply Z.div_pos; lia). lia.
  - cbn [quarterLoop]. destruct (isAfter cur last) eqn:Hafter; cbn [negb].
    + exfalso. apply (Hexit cur q); [|assumption].
      unfold isAfter in Hafter. now apply Z.ltb_lt in Hafter.
    + unfold isAfter in Hafter. apply Z.ltb_ge in Hafter.
      pose proof (endOfQuarter_ge cur) as Hge.
      pose proof (endOfQuarterDay_least (dayOf cur) q ltac:(lia) Hqe) as Hle.
      destruct (Z.eq_dec (endOfQuarterDay (dayOf cur)) q) as [Heq|Hne].
      * apply quarterLoop_incl. apply quarterBody_In. right.
        rewrite dayOf_endOfQuarter. split; [now symmetry|]. split; [|lia].
        unfold endOfQuarter. rewrite Heq.
        unfold DayAligned in Hlast. rewrite <- Hlast.
        unfold dayStart, msPerDay. lia.
      * apply IH; try assumption.
        -- unfold addDays, msPerDay in *.
           assert ((last - (endOfQuarter cur + 1 * 86400000)) / 86400000
                   <= (last - cur) / 86400000 - 1).
           { replace ((last - cur) / 86400000 - 1)
               with ((last - cur + (-1) * 86400000) / 86400000)
               by (rewrite Z.div_add by lia; lia).
             apply Z.div_le_mono; lia. }
           lia.
        -- unfold addDays, msPerDay. lia.
        -- rewrite dayOf_addDays_endOfQuarter. lia.
Qed.

Lemma notAfterEnd_day (e : Z) (t : Transaction.t) :
  notAfterEnd (parseDate (IsoDate e)) t = true <-> Transaction.date t <= e.
Proof.
  cbn [parseDate notAfterEnd]. unfold isAfter.
  rewrite negb_true_iff, Z.ltb_ge, !parseDay_dayStart.
  unfold dayStart, msPerDay. lia.
Qed.

Lemma lastPossibleDate_aligned (now : Z) (customer : Customer.t) :
  DayAligned
    (lastPossibleDate now (parseDate (Customer.iclEndDate customer))).
Proof.
  unfold lastPossibleDate.
  destruct (Customer.iclEndDate customer); cbn [parseDate].
  - unfold DayAligned, startOfDay. now rewrite dayOf_dayStart.
  - apply parseDay_aligned.
Qed.

Lemma horizonDay_eq (now : Z) (customer : Customer.t) :
  horizonDay now customer =
  match Customer.iclEndDate customer with
  | IsoDate day => day
  | NoDate => dayOf now
  end.
Proof.
  unfold horizonDay, lastPossibleDate.
  destruct (Customer.iclEndDate customer); cbn [parseDate].
  - unfold startOfDay. apply dayOf_dayStart.
  - apply dayOf_parseDay.
Qed.

Lemma endOfQuarter_before (last c : Z) :
  DayAligned last -> endOfQuarter c <= last ->
  endOfQuarterDay (dayOf c) < dayOf last.
Proof.
  unfold DayAligned, endOfQuarter. generalize (endOfQuarterDay (dayOf c)).
  generalize (dayOf last). intros L q Hal Hle. subst last.
  unfold dayStart, msPerDay in Hle. lia.
Qed.

Lemma quarterLoop_days (fuel : nat) (first last cur : Z) (ev : list Z)
  (y : Z) :
  DayAligned last ->
  In y (quarterLoop fuel (parseDay first) last cur ev) ->
  In y ev \/ (endOfQuarterDay y = y /\ first <= y < dayOf last).
Proof.
  intros Hal Hy. apply quarterLoop_In in Hy.
  destruct Hy as [Hy | (c & Hc & Hle & Hge)]; [now left|].
  right. pose proof (endOfQuarter_before last c Hal Hle) as Hlt.
  apply dayOf_monotone in Hge.
  rewrite dayOf_parseDay, dayOf_endOfQuarter in Hge.
  rewrite dayOf_endOfQuarter in Hc. subst y. split; [|lia].
  apply endOfQuarterDay_idempotent.
Qed.

Lemma transactionDates_In (sortedTransactions : list Transaction.t) (y : Z) :
  In y (fold_left setAdd (map Transaction.date sortedTransactions) []) <->
  exists t, In t sortedTransactions /\ Transaction.date t = y.
Proof.
  rewrite fold_setAdd_In, in_map_iff. cbn [In].
  split.
  - intros [[]|(t & Ht & Hin)]. now exists t.
  - intros (t & Hin & Ht). right. now exists t.
Qed.

Variable customer : Customer.t.
Variable now : Z.
Variable sortedTransactions : list Transaction.t.
Variable first : Transaction.t.

(** What the event dates are made of. *)
Lemma buildEventDates_In (d : Z) :
  In d
    (buildEventDates customer (parseDate (Customer.iclEndDate customer)) now
       sortedTransactions (parseDay (Transaction.date first))) ->
  (exists t, In t sortedTransactions /\ Transaction.date t = d)
  \/ (endOfQuarterDay d = d
      /\ Transaction.date first <= d < horizonDay now customer)
  \/ Customer.iclEndDate customer = IsoDate d.
Proof.
  rewrite horizonDay_eq. unfold buildEventDates.
  destruct (Customer.iclEndDate customer) as [|e]; cbn [parseDate]; intros Hd.
  - apply quarterLoop_days in Hd.
    + destruct Hd as [Hd|Hd]; [left; now apply transactionDates_In|].
      right. left. unfold startOfDay in Hd. now rewrite dayOf_dayStart in Hd.
    + unfold DayAligned, startOfDay. now rewrite dayOf_dayStart.
  - apply setAdd_In in Hd. destruct Hd as [Hd| ->]; [|now right; right].
    apply quarterLoop_days in Hd; [|apply parseDay_aligned].
    destruct Hd as [Hd|Hd]; [left; now apply transactionDates_In|].
    right. left. now rewrite dayOf_parseDay in Hd.
Qed.

Lemma buildEventDates_transactions (t : Transaction.t) :
  In t sortedTransactions ->
  In (Transaction.date t)
    (buildEventDates customer (parseDate (Customer.iclEndDate customer)) now
       sortedTransactions (parseDay (Transaction.date first))).
Proof.
  intros Ht. unfold buildEventDates.
  assert (In (Transaction.date t)
            (fold_left setAdd (map Transaction.date sortedTransactions) []))
    by (apply transactionDates_In; now exists t).
  destruct (Customer.iclEndDate customer); cbn [parseDate];
    [|apply setAdd_In; left]; now apply quarterLoop_incl.
Qed.

Lemma buildEventDates_end (e : Z) :
  Customer.iclEndDate customer = IsoDate e ->
  In e
    (buildEventDates customer (parseDate (Customer.iclEndDate customer)) now
       sortedTransactions (parseDay (Transaction.date first))).
Proof.
  intros He. unfold buildEventDates. rewrite He.
  cbn [parseDate]. apply setAdd_In. now right.
Qed.

Lemma buildEventDates_quarter (q : Z) :
  endOfQuarterDay q = q ->
  Transaction.date first <= q < horizonDay now customer ->
  In q
    (buildEventDates customer (parseDate (Customer.iclEndDate customer)) now
       sortedTransactions (parseDay (Transaction.date first))).
Proof.
  rewrite horizonDay_eq. unfold buildEventDates. intros Hq Hrange.
  destruct (Customer.iclEndDate customer) as [|e]; cbn [parseDate];
    [|apply setAdd_In; left];
    (apply quarterLoop_covers;
     [ | unfold quarterFuel; lia | lia | assumption
       | rewrite dayOf_parseDay ]).
  - unfold DayAligned, startOfDay. now rewrite dayOf_dayStart.
  - unfold startOfDay. now rewrite dayOf_dayStart.
  - apply parseDay_aligned.
  - now rewrite dayOf_parseDay.
Qed.

(** The days of the sorted event dates are the event dates. *)
Lemma uniqueSortedDates_In (eventDates : list Z) (d : Z) :
  In d (map dayOf (sortDates (map parseDay eventDates))) <-> In d eventDates.
Proof.
  rewrite in_map_iff. split.
  - intros (t & <- & Ht). apply -> sortDates_In in Ht.
    apply in_map_iff in Ht. destruct Ht as (x & <- & Hx).
    now rewrite dayOf_parseDay.
  - intros Hd. exists (parseDay d). split; [apply dayOf_parseDay|].
    apply sortDates_In. now apply in_map.
Qed.

End EventDateMembership.

(** ** Runs of the engine that pass the guards *)

Section Runs.

Lemma parseDay_diff (x y : Z) :
  (parseDay x - parseDay y <=? 0) = (x <=? y).
Proof.
  rewrite !parseDay_dayStart. unfold dayStart, msPerDay.
  destruct (x <=? y) eqn:H.
  - apply Z.leb_le in H. apply Z.leb_le. lia.
  - apply Z.leb_gt in H. apply Z.leb_gt. lia.
Qed.

Lemma insertTransaction_sorted (x : Transaction.t) (l : list Transaction.t) :
  StronglySorted NotLaterT l -> StronglySorted NotLaterT (insertTransaction x l).
Proof.
  induction l as [|y l IH]; intros Hs; cbn [insertTransaction].
  - repeat constructor.
  - inversion Hs as [|? ? Hl Hy]; subst. rewrite parseDay_diff.
    destruct (Transaction.date x <=? Transaction.date y) eqn:Hxy.
    + apply Z.leb_le in Hxy. constructor; [assumption|].
      constructor; [assumption|].
      eapply Forall_impl; [|exact Hy]. unfold NotLaterT. intros; lia.
    + apply Z.leb_gt in Hxy. constructor; [now apply IH|].
      apply Forall_forall. intros z Hz. apply insertTransaction_In in Hz.
      destruct Hz as [->|Hz]; [unfold NotLaterT; lia|].
      rewrite Forall_forall in Hy. now apply Hy.
Qed.

Lemma sortTransactions_sorted (l : list Transaction.t) :
  StronglySorted NotLaterT (sortTransactions l).
Proof.
  induction l as [|x l IH]; cbn [sortTransactions fold_right]; [constructor|].
  now apply insertTransaction_sorted.
Qed.

Lemma sortTransactions_head (l : list Transaction.t) first rest :
  sortTransactions l = first :: rest ->
  In first l /\ forall t, In t l -> Transaction.date first <= Transaction.date t.
Proof.
  intros Heq. split.
  - apply sortTransactions_In. rewrite Heq. now left.
  - intros t Ht. apply sortTransactions_In in Ht. rewrite Heq in Ht.
    pose proof (sortTransactions_sorted l) as Hs. rewrite Heq in Hs.
    inversion Hs as [|? ? _ Hall]; subst.
    destruct Ht as [<-|Ht]; [lia|].
    rewrite Forall_forall in Hall. now apply Hall.
Qed.

(** A rate that does not read as zero is truthy; a truthy one may read as
    zero. *)
Lemma isTruthy_of_nonzero (r : Rate) : ~ (r == 0)%Q -> isTruthy r = true.
Proof.
  destruct r as [q|[q|]]; cbn [toNumber isTruthy]; intros H.
  - apply negb_true_iff. destruct (Qeq_bool q 0) eqn:Hq; [|reflexivity].
    now apply Qeq_bool_iff in Hq.
  - reflexivity.
  - now contradiction H.
Qed.

(** A run is cut short by a guard, or it is the trace of the sorted event
    dates. *)
Lemma generateLedger_view (now : Z) (customer : Customer.t)
  (transactions : list Transaction.t) :
  (generateLedger now customer transactions = []
   /\ (parseDate (Customer.iclStartDate customer) = None
       \/ isTruthy (Customer.interestRate customer) = false
       \/ keptTransactions customer transactions = []))
  \/ exists start first rest,
       parseDate (Customer.iclStartDate customer) = Some start
       /\ isTruthy (Customer.interestRate customer) = true
       /\ sortTransactions (keptTransactions customer transactions)
          = first :: rest
       /\ generateLedger now customer transactions =
          trace customer start (first :: rest)
            (sortDates
               (map parseDay (eventDatesOf now customer transactions)))
            0%Q 0%Q.
Proof.
  unfold generateLedger, eventDatesOf.
  destruct (parseDate (Customer.iclStartDate customer)) as [start|];
    [|left; split; [reflexivity | now left]].
  destruct (isTruthy (Customer.interestRate customer)) eqn:Hrate.
  2:{ left. split; [reflexivity|]. right. left. reflexivity. }
  destruct transactions as [|t0 transactions].
  { left. split; [reflexivity|]. right. right. reflexivity. }
  cbn [List.length Nat.eqb orb negb].
  fold (keptTransactions customer (t0 :: transactions)).
  destruct (sortTransactions (keptTransactions customer (t0 :: transactions)))
    as [|first rest] eqn:Hsorted.
  { left. split; [reflexivity|]. right. right.
    destruct (keptTransactions customer (t0 :: transactions)) as [|k ks];
      [reflexivity|].
    assert (Hk : In k (sortTransactions (k :: ks)))
      by (apply sortTransactions_In; now left).
    rewrite Hsorted in Hk. destruct Hk. }
  right. exists start, first, rest. split; [reflexivity|].
  split; [reflexivity|].
  split; [reflexivity|]. rewrite ledgerLoop_trace. reflexivity.
Qed.

Lemma eventDatesOf_NoDup (now : Z) (customer : Customer.t)
  (transactions : list Transaction.t) :
  NoDup (eventDatesOf now customer transactions).
Proof.
  unfold eventDatesOf. destruct (sortTransactions _); [constructor|].
  apply buildEventDates_NoDup.
Qed.

(** The rows of the ledger are dated on the event dates, and every event
    date has its row. *)
Lemma ledger_dates (now : Z) (customer : Customer.t)
  (transactions : list Transaction.t) :
  (forall r, In r (generateLedger now customer transactions) ->
             In (LedgerRow.date r) (eventDatesOf now customer transactions))
  /\ (generateLedger now customer transactions <> [] ->
      forall d, In d (eventDatesOf now customer transactions) ->
      exists r,
        In r (generateLedger now customer transactions)
        /\ LedgerRow.date r = d
        /\ LedgerRow.description r <> Capitalized).
Proof.
  destruct (generateLedger_view now customer transactions)
    as [[Hnil _] | (start & first & rest & _ & _ & Hsorted & Htrace)].
  { rewrite Hnil. split; [intros r [] | intros H; now contradiction H]. }
  rewrite Htrace. clear Htrace.
  assert (Hin : forall d,
             In d (map dayOf
                     (sortDates
                        (map parseDay
                           (eventDatesOf now customer transactions))))
             <-> In d (eventDatesOf now customer transactions)).
  { intros d. unfold eventDatesOf. rewrite Hsorted.
    apply uniqueSortedDates_In. }
  split.
  - intros r Hr. apply Hin. eapply trace_dates; eauto.
  - intros _ d Hd. apply Hin in Hd. apply in_map_iff in Hd.
    destruct Hd as (e & <- & He).
    eapply trace_covers in He. exact He.
Qed.

(** What the event dates are, in terms of the kept transactions. *)
Lemma eventDatesOf_In (now : Z) (customer : Customer.t)
  (transactions : list Transaction.t) (d : Z) :
  In d (eventDatesOf now customer transactions) <->
  (exists t, In t (keptTransactions customer transactions)
             /\ Transaction.date t = d)
  \/ (endOfQuarterDay d = d
      /\ (exists t, In t (keptTransactions customer transactions)
                    /\ Transaction.date t <= d)
      /\ d < horizonDay now customer)
  \/ (Customer.iclEndDate customer = IsoDate d
      /\ keptTransactions customer transactions <> []).
Proof.
  unfold eventDatesOf.
  destruct (sortTransactions (keptTransactions customer transactions))
    as [|first rest] eqn:Hsorted.
  - assert (Hnil : keptTransactions customer transactions = []).
    { destruct (keptTransactions customer transactions) as [|k ks];
        [reflexivity|].
      assert (Hk : In k (sortTransactions (k :: ks)))
        by (apply sortTransactions_In; now left).
      rewrite Hsorted in Hk. destruct Hk. }
    rewrite Hnil. split; [intros [] |].
    intros [(t & [] & _) | [(_ & (t & [] & _) & _) | [_ H]]].
    now contradiction H.
  - destruct (sortTransactions_head _ _ _ Hsorted) as [Hfirst Hmin].
    assert (Hmem : forall t,
               In t (first :: rest)
               <-> In t (keptTransactions customer transactions)).
    { intros t. rewrite <- Hsorted. apply sortTransactions_In. }
    split.
    + intros Hd. apply buildEventDates_In in Hd.
      destruct Hd as [(t & Ht & Hdt) | [(Hq & Hlo & Hhi) | Hend]].
      * left. exists t. split; [now apply Hmem | assumption].
      * right. left. split; [assumption|]. split; [|assumption].
        now exists first.
      * right. right. split; [assumption|].
        intros Hnil. rewrite Hnil in Hfirst. destruct Hfirst.
    + intros [(t & Ht & <-) | [(Hq & (t & Ht & Hle) & Hhi) | [Hend _]]].
      * apply buildEventDates_transactions. now apply Hmem.
      * apply buildEventDates_quarter; [assumption|].
        pose proof (Hmin t Ht). lia.
      * now apply buildEventDates_end.
Qed.

(** The ledger is sorted by date. *)
Lemma ledger_sorted (now : Z) (customer : Customer.t)
  (transactions : list Transaction.t) :
  StronglySorted NotLater (generateLedger now customer transactions).
Proof.
  destruct (generateLedger_view now customer transactions)
    as [[Hnil _] | (start & first & rest & _ & _ & Hsorted & Htrace)].
  { rewrite Hnil. constructor. }
  rewrite Htrace. apply Sorted_StronglySorted.
  { intros a b c. unfold NotLater. lia. }
  eapply Sorted_weaken; [|apply trace_ordered].
  - intros a b [H _]. exact H.
  - apply uniqueSortedDates_increasing, eventDatesOf_NoDup.
Qed.

Lemma StronglySorted_last {A : Type} (R : A -> A -> Prop)
  (pre : list A) (x : A) :
  StronglySorted R (pre ++ [x]) -> forall y, In y pre -> R y x.
Proof.
  induction pre as [|z pre IH]; intros Hs y Hy; [destruct Hy|].
  cbn [app] in Hs. inversion Hs as [|? ? Hs' Hall]; subst.
  destruct Hy as [<-|Hy]; [|now apply IH].
  rewrite Forall_forall in Hall. apply Hall. apply in_or_app. right. now left.
Qed.

End Runs.

(** ** The transactions of a day *)

Section EventsOfDay.

Variable sortedTransactions : list Transaction.t.

Lemma transactionsOn_day (e : Z) :
  transactionsOn sortedTransactions e =
  transactionsOfDay (dayOf e) sortedTransactions.
Proof.
  unfold transactionsOn, transactionsOfDay. apply filter_ext.
  intros t. unfold isSameDay. now rewrite dayOf_parseDay.
Qed.

Variable customer : Customer.t.
Variable iclStartDate : Z.

Lemma trace_covers_main (dates : list Z) :
  forall P C e,
    In e dates ->
    exists n P' C',
      In (mainRow customer sortedTransactions e n P' C')
        (trace customer iclStartDate sortedTransactions dates P C).
Proof.
  induction dates as [|e0 rest IH]; intros P C e Hin; [destruct Hin|].
  rewrite trace_cons. cbv zeta.
  destruct Hin as [->|Hin].
  - exists (hd_error rest), P, C.
    destruct (capitalizes _ _ _ _); left; reflexivity.
  - destruct (capitalizes _ _ _ _);
      match goal with
      | |- context [trace _ _ _ rest ?P' ?C'] =>
          destruct (IH P' C' e Hin) as (n & P1 & C1 & Hr)
      end;
      exists n, P1, C1.
    + right; right; exact Hr.
    + right; exact Hr.
Qed.

End EventsOfDay.

(** ** Further properties of the ledger *)

Lemma trace_nonempty customer start sorted e dates P C :
  trace customer start sorted (e :: dates) P C <> [].
Proof.
  rewrite trace_cons. cbv zeta. destruct (capitalizes _ _ _ _); discriminate.
Qed.

(** A run that passes the guards pushes at least one row. *)
Lemma run_nonempty (now : Z) (customer : Customer.t)
  (transactions : list Transaction.t) start first rest :
  sortTransactions (keptTransactions customer transactions) = first :: rest ->
  trace customer start (first :: rest)
    (sortDates (map parseDay (eventDatesOf now customer transactions)))
    0%Q 0%Q <> [].
Proof.
  intros Hsorted.
  destruct (sortTransactions_head _ _ _ Hsorted) as [Hfirst _].
  assert (Hin : In (parseDay (Transaction.date first))
                  (sortDates
                     (map parseDay
                        (eventDatesOf now customer transactions)))).
  { apply sortDates_In, in_map, eventDatesOf_In. left. now exists first. }
  destruct (sortDates _) as [|e dates]; [destruct Hin|].
  apply trace_nonempty.
Qed.

(** X2. The ledger is empty exactly when the start date does not parse, or
    the rate is falsy (the number 0, or the empty text of a cleared field),
    or no transaction is left after the filter on the end date.  A rate held
    as the text of a numeral is truthy, also when the numeral is 0. *)
Theorem empty_ledger_iff
  (now : Z) (customer : Customer.t) (transactions : list Transaction.t) :
  generateLedger now customer transactions = [] <->
  parseDate (Customer.iclStartDate customer) = None
  \/ isTruthy (Customer.interestRate customer) = false
  \/ keptTransactions customer transactions = [].
Proof.
  destruct (generateLedger_view now customer transactions)
    as [[Hnil Hwhy] | (start & first & rest & Hs & Hr & Hsorted & Htrace)].
  - tauto.
  - rewrite Htrace. split.
    + intros H. exfalso. revert H. now apply run_nonempty.
    + intros [H|[H|H]]; [congruence | congruence |].
      rewrite H in Hsorted. discriminate.
Qed.

(** X3. The ledger opens on the earliest kept transaction: its first row
    carries the date that [format] writes for the parsed date of a kept
    transaction, no kept transaction parses to an earlier day, and the row
    is not a capitalization. *)
Theorem ledger_opens_on_first_transaction
  (now : Z) (customer : Customer.t) (transactions : list Transaction.t)
  (r0 : LedgerRow.t) (rows : list LedgerRow.t) :
  generateLedger now customer transactions = r0 :: rows ->
  (exists t, In t (keptTransactions customer transactions)
             /\ format (parseDay (Transaction.date t)) = LedgerRow.date r0)
  /\ (forall t, In t (keptTransactions customer transactions) ->
                LedgerRow.date r0 <= format (parseDay (Transaction.date t)))
  /\ LedgerRow.description r0 <> Capitalized.
Proof.
  setoid_rewrite format_parseDay. intros Hledger.
  destruct (generateLedger_view now customer transactions)
    as [[Hnil _] | (start & first & rest & Hs & Hr & Hsorted & Htrace)].
  { rewrite Hnil in Hledger. discriminate. }
  destruct (sortTransactions_head _ _ _ Hsorted) as [Hfirst Hmin].
  destruct (ledger_dates now customer transactions) as [Hsound Hcover].
  pose proof (ledger_sorted now customer transactions) as Hord.
  rewrite Hledger in Hsound, Hcover, Hord.
  assert (Hlow : Transaction.date first <= LedgerRow.date r0).
  { specialize (Hsound r0 (or_introl eq_refl)).
    apply eventDatesOf_In in Hsound.
    destruct Hsound as [(t & Ht & <-) | [(_ & (t & Ht & Hle) & _) | [He _]]].
    - now apply Hmin.
    - specialize (Hmin t Ht). lia.
    - unfold keptTransactions in Hfirst. rewrite He in Hfirst.
      apply filter_In in Hfirst. destruct Hfirst as [_ Hf].
      now apply notAfterEnd_day in Hf. }
  assert (Hhigh : LedgerRow.date r0 <= Transaction.date first).
  { destruct (Hcover ltac:(discriminate) (Transaction.date first))
      as (r & Hin & Hd & _).
    - apply eventDatesOf_In. left. now exists first.
    - inversion Hord as [|? ? _ Hall]; subst.
      destruct Hin as [<-|Hin]; [lia|].
      rewrite Forall_forall in Hall. specialize (Hall r Hin).
      unfold NotLater in Hall. lia. }
  split; [exists first; split; [assumption | lia]|]. split.
  - intros t Ht. specialize (Hmin t Ht). lia.
  - rewrite Htrace in Hledger.
    destruct (sortDates _) as [|e dates]; [discriminate|].
    rewrite trace_cons in Hledger. cbv zeta in Hledger.
    destruct (capitalizes _ _ _ _); injection Hledger as <- _;
      apply mainRow_not_capitalized.
Qed.

Lemma ledger_opens_on_first_transaction_witness :
  (exists t,
     In t (keptTransactions sampleCustomer overRepaidTransactions)
     /\ format (parseDay (Transaction.date t)) =
        LedgerRow.date
          (sampleRow 0
             (generateLedger sampleNow sampleCustomer overRepaidTransactions)))
  /\ (forall t,
        In t (keptTransactions sampleCustomer overRepaidTransactions) ->
        LedgerRow.date
          (sampleRow 0
             (generateLedger sampleNow sampleCustomer overRepaidTransactions))
        <= format (parseDay (Transaction.date t)))
  /\ LedgerRow.description
       (sampleRow 0
          (generateLedger sampleNow sampleCustomer overRepaidTransactions))
     <> Capitalized.
Proof.
  apply (ledger_opens_on_first_transaction
           sampleNow sampleCustomer overRepaidTransactions _
           (skipn 1
              (generateLedger sampleNow sampleCustomer
                 overRepaidTransactions))).
  vm_compute. reflexivity.
Defined.

(** X4. Every row of the ledger carries the date that [format] writes for
    the parsed date of a kept transaction, or a quarter end before the last
    possible day, or the date that [format] writes for the parsed end date;
    it is not dated before the day the earliest kept transaction parses to,
    and with an end date it is not dated after the day that one parses
    to. *)
Theorem row_dates_sound
  (now : Z) (customer : Customer.t) (transactions : list Transaction.t)
  (r : LedgerRow.t) :
  In r (generateLedger now customer transactions) ->
  ((exists t, In t (keptTransactions customer transactions)
              /\ format (parseDay (Transaction.date t)) = LedgerRow.date r)
   \/ (endOfQuarterDay (LedgerRow.date r) = LedgerRow.date r
       /\ LedgerRow.date r < horizonDay now customer)
   \/ (exists e, Customer.iclEndDate customer = IsoDate e
                 /\ format (parseDay e) = LedgerRow.date r))
  /\ (exists t, In t (keptTransactions customer transactions)
                /\ format (parseDay (Transaction.date t)) <= LedgerRow.date r)
  /\ (forall e, Customer.iclEndDate customer = IsoDate e ->
                LedgerRow.date r <= format (parseDay e)).
Proof.
  setoid_rewrite format_parseDay. intros Hr.
  destruct (ledger_dates now customer transactions) as [Hsound _].
  specialize (Hsound r Hr). apply eventDatesOf_In in Hsound.
  assert (Hkept : forall t e,
             In t (keptTransactions customer transactions) ->
             Customer.iclEndDate customer = IsoDate e ->
             Transaction.date t <= e).
  { intros t e Ht He. unfold keptTransactions in Ht. rewrite He in Ht.
    apply filter_In in Ht. destruct Ht as [_ Hf].
    now apply notAfterEnd_day in Hf. }
  destruct Hsound as [(t & Ht & Hd) | [(Hq & (t & Ht & Hle) & Hhi) | [He Hne]]].
  - split; [left; now exists t|]. split; [exists t; split; [assumption|lia]|].
    intros e He. rewrite <- Hd. now apply (Hkept t).
  - split; [right; left; now split|]. split; [now exists t|].
    intros e He. rewrite horizonDay_eq, He in Hhi. lia.
  - split; [right; right; exists (LedgerRow.date r); now split|]. split.
    + destruct (keptTransactions customer transactions) as [|t ts] eqn:Hk;
        [now contradiction Hne|].
      exists t. split; [now left|]. apply (Hkept t); [|assumption].
      now left.
    + intros e He'. rewrite He in He'. injection He' as <-. lia.
Qed.

Lemma row_dates_sound_witness :
  ((exists t,
      In t (keptTransactions closedCustomer sampleTransactions)
      /\ format (parseDay (Transaction.date t)) =
         LedgerRow.date
           (sampleRow 1
              (generateLedger sampleNow closedCustomer sampleTransactions)))
   \/ (endOfQuarterDay
         (LedgerRow.date
            (sampleRow 1
               (generateLedger sampleNow closedCustomer sampleTransactions)))
       = LedgerRow.date
           (sampleRow 1
              (generateLedger sampleNow closedCustomer sampleTransactions))
       /\ LedgerRow.date
            (sampleRow 1
               (generateLedger sampleNow closedCustomer sampleTransactions))
          < horizonDay sampleNow closedCustomer)
   \/ (exists e,
         Customer.iclEndDate closedCustomer = IsoDate e
         /\ format (parseDay e) =
            LedgerRow.date
              (sampleRow 1
                 (generateLedger sampleNow closedCustomer
                    sampleTransactions))))
  /\ (exists t,
        In t (keptTransactions closedCustomer sampleTransactions)
        /\ format (parseDay (Transaction.date t)) <=
           LedgerRow.date
             (sampleRow 1
                (generateLedger sampleNow closedCustomer sampleTransactions)))
  /\ (forall e,
        Customer.iclEndDate closedCustomer = IsoDate e ->
        LedgerRow.date
          (sampleRow 1
             (generateLedger sampleNow closedCustomer sampleTransactions))
        <= format (parseDay e)).
Proof.
  apply (row_dates_sound sampleNow closedCustomer sampleTransactions).
  vm_compute. right. left. reflexivity.
Defined.

Lemma kept_not_after_end (customer : Customer.t)
  (transactions : list Transaction.t) (t : Transaction.t) (e : Z) :
  In t (keptTransactions customer transactions) ->
  Customer.iclEndDate customer = IsoDate e ->
  Transaction.date t <= e.
Proof.
  intros Ht He. unfold keptTransactions in Ht. rewrite He in Ht.
  apply filter_In in Ht. destruct Ht as [_ Hf].
  now apply notAfterEnd_day in Hf.
Qed.

Lemma ledger_not_after_end (now : Z) (customer : Customer.t)
  (transactions : list Transaction.t) (r : LedgerRow.t) (e : Z) :
  In r (generateLedger now customer transactions) ->
  Customer.iclEndDate customer = IsoDate e ->
  LedgerRow.date r <= e.
Proof.
  intros Hr He.
  destruct (ledger_dates now customer transactions) as [Hsound _].
  specialize (Hsound r Hr). apply eventDatesOf_In in Hsound.
  destruct Hsound as [(t & Ht & Hd) | [(Hq & _ & Hhi) | [He' _]]].
  - rewrite <- Hd. now apply (kept_not_after_end customer transactions).
  - rewrite horizonDay_eq, He in Hhi. lia.
  - rewrite He in He'. injection He' as <-. lia.
Qed.

(** A run that passes the guards. *)
Lemma generateLedger_passes (now : Z) (customer : Customer.t)
  (transactions : list Transaction.t) :
  parseDate (Customer.iclStartDate customer) <> None ->
  isTruthy (Customer.interestRate customer) = true ->
  keptTransactions customer transactions <> [] ->
  exists start first rest,
    sortTransactions (keptTransactions customer transactions) = first :: rest
    /\ generateLedger now customer transactions =
       trace customer start (first :: rest)
         (sortDates (map parseDay (eventDatesOf now customer transactions)))
         0%Q 0%Q
    /\ generateLedger now customer transactions <> [].
Proof.
  intros Hs Hr Hk.
  destruct (generateLedger_view now customer transactions)
    as [[_ [H|[H|H]]] | (start & first & rest & _ & _ & Hsorted & Htrace)];
    try contradiction; try congruence.
  exists start, first, rest. split; [assumption|]. split; [assumption|].
  rewrite Htrace. now apply run_nonempty.
Qed.

Lemma empty_kept_empty (now : Z) (customer : Customer.t)
  (transactions : list Transaction.t) :
  keptTransactions customer transactions = [] ->
  generateLedger now customer transactions = [].
Proof.
  intros Hnil.
  destruct (generateLedger_view now customer transactions)
    as [[H _] | (start & first & rest & _ & _ & Hsorted & _)];
    [assumption|].
  rewrite Hnil in Hsorted. discriminate.
Qed.

(** ** The guard on the rate *)

Lemma calculateSimpleInterest_zero_rate (principal rate : Q) (days year : Z) :
  (rate == 0)%Q ->
  (calculateSimpleInterest principal rate days year == 0)%Q.
Proof.
  intros H. unfold calculateSimpleInterest.
  destruct (Qle_bool principal 0 || (days <=? 0)); [reflexivity|].
  rewrite H. unfold Qdiv. ring.
Qed.

(** C10, as the code has it. With a start date that does not parse, or a
    rate that is falsy (the number 0, or the empty text of a cleared field),
    the engine returns the empty ledger, whatever the transactions.  A rate
    that reads as zero and is truthy, as is the text of the numeral 0 that
    the form stores, passes the guard: when the start date parses and a
    transaction is kept, the ledger is not empty, and the interest of every
    row is zero. *)
Theorem zero_rate_or_bad_start
  (now : Z) (customer : Customer.t) (transactions : list Transaction.t) :
  (isTruthy (Customer.interestRate customer) = false
   \/ parseDate (Customer.iclStartDate customer) = None ->
   generateLedger now customer transactions = [])
  /\ (isTruthy (Customer.interestRate customer) = true ->
      (Customer.interestRate customer == 0)%Q ->
      parseDate (Customer.iclStartDate customer) <> None ->
      keptTransactions customer transactions <> [] ->
      generateLedger now customer transactions <> []
      /\ forall r, In r (generateLedger now customer transactions) ->
                   (LedgerRow.interest r == 0)%Q).
Proof.
  split.
  - intros [H|H]; unfold generateLedger; rewrite H; [|reflexivity].
    now destruct (parseDate (Customer.iclStartDate customer)).
  - intros Ht Hz Hs Hk.
    destruct (generateLedger_passes now customer transactions Hs Ht Hk)
      as (start & first & rest & _ & Htrace & Hne).
    split; [assumption|]. rewrite Htrace.
    apply (trace_all customer start (first :: rest)
             (fun r => (LedgerRow.interest r == 0)%Q)).
    + intros e n P C. unfold mainRow. cbn [LedgerRow.interest].
      now apply calculateSimpleInterest_zero_rate.
    + intros e P1 C1. reflexivity.
Qed.

Lemma zero_rate_or_bad_start_witness :
  filter (notAfterEnd (parseDate (Customer.iclEndDate zeroRateCustomer)))
    sampleTransactions = sampleTransactions
  /\ generateLedger sampleNow zeroRateCustomer sampleTransactions = []
  /\ generateLedger sampleNow clearedRateCustomer sampleTransactions = []
  /\ generateLedger sampleNow
       (Customer.mk NoDate NoDate Compound (RateNumber 12) 10%Q)
       sampleTransactions = []
  /\ generateLedger sampleNow zeroTextCustomer sampleTransactions <> []
  /\ (forall r,
        In r (generateLedger sampleNow zeroTextCustomer sampleTransactions) ->
        (LedgerRow.interest r == 0)%Q).
Proof.
  split; [reflexivity|]. split; [|split; [|split]].
  - apply (proj1 (zero_rate_or_bad_start
                    sampleNow zeroRateCustomer sampleTransactions)).
    left. reflexivity.
  - apply (proj1 (zero_rate_or_bad_start
                    sampleNow clearedRateCustomer sampleTransactions)).
    left. reflexivity.
  - apply (proj1 (zero_rate_or_bad_start sampleNow
                    (Customer.mk NoDate NoDate Compound (RateNumber 12) 10%Q)
                    sampleTransactions)).
    right. reflexivity.
  - apply (proj2 (zero_rate_or_bad_start
                    sampleNow zeroTextCustomer sampleTransactions)).
    + reflexivity.
    + reflexivity.
    + discriminate.
    + discriminate.
Defined.

(** The claim that every rate equal to zero gives the empty ledger fails on
    the rate the form stores for an input of 0: the text is truthy, and the
    ledger holds the two rows of the account, with no interest. *)
Lemma zero_rate_counterexample :
  (Customer.interestRate zeroTextCustomer == 0)%Q
  /\ parseDate (Customer.iclStartDate zeroTextCustomer) <> None
  /\ map (fun r =>
            (civilFromDays (LedgerRow.date r), LedgerRow.description r,
             Qred (LedgerRow.interest r)))
       (generateLedger sampleNow zeroTextCustomer sampleTransactions)
     = [((2023, 4, 1), Deposit, 0%Q); ((2023, 6, 30), InterestPeriod, 0%Q)].
Proof.
  split; [reflexivity|]. split; [discriminate|]. vm_compute. reflexivity.
Qed.

(** The sort is stable: the transactions of one day keep their order. *)
Lemma transactionsOfDay_insert (day : Z) (x : Transaction.t)
  (l : list Transaction.t) :
  transactionsOfDay day (insertTransaction x l) =
  transactionsOfDay day (x :: l).
Proof.
  induction l as [|y l IH]; cbn [insertTransaction]; [reflexivity|].
  destruct (parseDay (Transaction.date x) - parseDay (Transaction.date y)
            <=? 0) eqn:Hle; [reflexivity|].
  unfold transactionsOfDay in *. cbn [filter] in *. rewrite IH.
  destruct (Transaction.date x =? day) eqn:Hx;
    destruct (Transaction.date y =? day) eqn:Hy; try reflexivity.
  exfalso. apply Z.eqb_eq in Hx, Hy. rewrite Hx, Hy, Z.sub_diag in Hle.
  discriminate.
Qed.

Lemma transactionsOfDay_sort (day : Z) (l : list Transaction.t) :
  transactionsOfDay day (sortTransactions l) = transactionsOfDay day l.
Proof.
  induction l as [|x l IH]; [reflexivity|].
  change (sortTransactions (x :: l))
    with (insertTransaction x (sortTransactions l)).
  rewrite transactionsOfDay_insert. unfold transactionsOfDay in *.
  cbn [filter]. now rewrite IH.
Qed.

(** X5. When the start date parses and the rate is truthy, every kept
    transaction has a row that is not a capitalization on the date that
    [format] writes for its parsed date, and the amounts paid and repaid of
    that row are those of the kept transactions of that date, added up from
    zero in the order of the transaction list. *)
Theorem transactions_covered
  (now : Z) (customer : Customer.t) (transactions : list Transaction.t)
  (t : Transaction.t) :
  parseDate (Customer.iclStartDate customer) <> None ->
  isTruthy (Customer.interestRate customer) = true ->
  In t (keptTransactions customer transactions) ->
  exists r,
    In r (generateLedger now customer transactions)
    /\ LedgerRow.date r = format (parseDay (Transaction.date t))
    /\ LedgerRow.description r <> Capitalized
    /\ LedgerRow.paid r =
       fold_left (fun acc t' => (acc + Transaction.paid t')%Q)
         (transactionsOfDay (Transaction.date t)
            (keptTransactions customer transactions)) 0%Q
    /\ LedgerRow.repaid r =
       fold_left (fun acc t' => (acc + Transaction.repaid t')%Q)
         (transactionsOfDay (Transaction.date t)
            (keptTransactions customer transactions)) 0%Q.
Proof.
  intros Hs Hr Ht.
  destruct (generateLedger_passes now customer transactions Hs Hr)
    as (start & first & rest & Hsorted & Htrace & _).
  { intros Hnil. rewrite Hnil in Ht. destruct Ht. }
  rewrite Htrace.
  assert (Hin : In (parseDay (Transaction.date t))
                  (sortDates
                     (map parseDay
                        (eventDatesOf now customer transactions)))).
  { apply sortDates_In, in_map, eventDatesOf_In. left. now exists t. }
  destruct (trace_covers_main (first :: rest) customer start _ 0%Q 0%Q _ Hin)
    as (n & P' & C' & Hrow).
  eexists. split; [exact Hrow|].
  split; [reflexivity|].
  split; [apply mainRow_not_capitalized|].
  unfold mainRow. cbn [LedgerRow.paid LedgerRow.repaid].
  unfold paidOn, repaidOn.
  rewrite transactionsOn_day, dayOf_parseDay, <- Hsorted.
  rewrite transactionsOfDay_sort. split; reflexivity.
Qed.

Lemma transactions_covered_witness :
  exists r,
    In r (generateLedger sampleNow sampleCustomer overRepaidTransactions)
    /\ LedgerRow.date r = format (parseDay (ymd 2023 5 1))
    /\ LedgerRow.description r <> Capitalized
    /\ LedgerRow.paid r =
       fold_left (fun acc t' => (acc + Transaction.paid t')%Q)
         (transactionsOfDay (ymd 2023 5 1)
            (keptTransactions sampleCustomer overRepaidTransactions)) 0%Q
    /\ LedgerRow.repaid r =
       fold_left (fun acc t' => (acc + Transaction.repaid t')%Q)
         (transactionsOfDay (ymd 2023 5 1)
            (keptTransactions sampleCustomer overRepaidTransactions)) 0%Q.
Proof.
  apply (transactions_covered sampleNow sampleCustomer overRepaidTransactions
           (Transaction.mk (ymd 2023 5 1) 0%Q 200%Q)).
  - discriminate.
  - reflexivity.
  - vm_compute. right. left. reflexivity.
Defined.



(** X8. With an end date, the ledger closes on it: the last row carries the
    date that [format] writes for the parsed end date. *)
Theorem ledger_closes_on_end_date
  (now : Z) (customer : Customer.t) (transactions : list Transaction.t)
  (pre : list LedgerRow.t) (r : LedgerRow.t) (e : Z) :
  Customer.iclEndDate customer = IsoDate e ->
  generateLedger now customer transactions = pre ++ [r] ->
  LedgerRow.date r = format (parseDay e).
Proof.
  intros He Hledger. rewrite format_parseDay.
  assert (Hne : generateLedger now customer transactions <> [])
    by (rewrite Hledger; now destruct pre).
  assert (Hkept : keptTransactions customer transactions <> []).
  { intros Hnil. apply Hne. apply empty_kept_empty. exact Hnil. }
  destruct (ledger_dates now customer transactions) as [_ Hcover].
  destruct (Hcover Hne e) as (r' & Hin & Hd & _).
  { apply eventDatesOf_In. right. right. now split. }
  pose proof (ledger_sorted now customer transactions) as Hord.
  assert (Hle : LedgerRow.date r <= e).
  { apply (ledger_not_after_end now customer transactions); [|assumption].
    rewrite Hledger. apply in_or_app. right. now left. }
  rewrite Hledger in Hin, Hord.
  apply in_app_or in Hin. destruct Hin as [Hin | [<-|[]]]; [|assumption].
  pose proof (StronglySorted_last _ _ _ Hord r' Hin) as Hlast.
  unfold NotLater in Hlast. lia.
Qed.

Lemma ledger_closes_on_end_date_witness :
  LedgerRow.date
    (sampleRow 2 (generateLedger sampleNow closedCustomer sampleTransactions))
  = format (parseDay (ymd 2023 6 30)).
Proof.
  apply (ledger_closes_on_end_date sampleNow closedCustomer sampleTransactions
           (firstn 2
              (generateLedger sampleNow closedCustomer sampleTransactions))).
  - reflexivity.
  - vm_compute. reflexivity.
Defined.

(** X9. In Compound mode, a row that is not a capitalization, dated on a
    quarter end that is not before the start date, with a positive cumulative
    interest, is followed at once by a capitalization row of the same date,
    whose principal is the principal of the row plus its cumulative
    interest. *)
Theorem capitalization_trigger
  (now : Z) (customer : Customer.t) (transactions : list Transaction.t)
  (pre post : list LedgerRow.t) (r : LedgerRow.t) (start : Z) :
  generateLedger now customer transactions = pre ++ r :: post ->
  LedgerRow.description r <> Capitalized ->
  Customer.interestMethod customer = Compound ->
  endOfQuarterDay (LedgerRow.date r) = LedgerRow.date r ->
  Customer.iclStartDate customer = IsoDate start ->
  start <= LedgerRow.date r ->
  (0 < LedgerRow.cumulativeInterest r)%Q ->
  exists cap post',
    post = cap :: post'
    /\ LedgerRow.description cap = Capitalized
    /\ LedgerRow.date cap = LedgerRow.date r
    /\ (LedgerRow.principal cap ==
        LedgerRow.principal r + LedgerRow.cumulativeInterest r)%Q.
Proof.
  intros Hledger Hd Hm Hq Hstart Hs Hc.
  destruct (generateLedger_view now customer transactions)
    as [[Hnil _] | (s & first & rest & Hparse & _ & _ & Htrace)].
  { rewrite Hnil in Hledger. now destruct pre. }
  rewrite Htrace in Hledger. rewrite Hstart in Hparse.
  injection Hparse as <-.
  eapply trace_capitalizes_after; eauto.
  now rewrite dayOf_parseDay.
Qed.

Lemma capitalization_trigger_witness :
  exists cap post',
    skipn 2 sampleLedger = cap :: post'
    /\ LedgerRow.description cap = Capitalized
    /\ LedgerRow.date cap = LedgerRow.date (sampleRow 1 sampleLedger)
    /\ (LedgerRow.principal cap ==
        LedgerRow.principal (sampleRow 1 sampleLedger)
        + LedgerRow.cumulativeInterest (sampleRow 1 sampleLedger))%Q.
Proof.
  apply (capitalization_trigger sampleNow sampleCustomer sampleTransactions
           (firstn 1 sampleLedger) _ _ (ymd 2023 4 1)).
  - vm_compute. reflexivity.
  - vm_compute. discriminate.
  - reflexivity.
  - vm_compute. reflexivity.
  - reflexivity.
  - vm_compute. discriminate.
  - vm_compute. reflexivity.
Defined.

(** X10. When the start date parses and the rate is not zero, every quarter
    end from the date of a kept transaction on and before the last possible
    day has a row that is not a capitalization. *)
Theorem quarter_ends_covered
  (now : Z) (customer : Customer.t) (transactions : list Transaction.t)
  (t : Transaction.t) (q : Z) :
  parseDate (Customer.iclStartDate customer) <> None ->
  ~ (Customer.interestRate customer == 0)%Q ->
  In t (keptTransactions customer transactions) ->
  endOfQuarterDay q = q ->
  Transaction.date t <= q ->
  q < horizonDay now customer ->
  exists r,
    In r (generateLedger now customer transactions)
    /\ LedgerRow.date r = q
    /\ LedgerRow.description r <> Capitalized.
Proof.
  intros Hs Hr Ht Hq Hlo Hhi.
  destruct (generateLedger_passes now customer transactions Hs
              (isTruthy_of_nonzero _ Hr))
    as (start & first & rest & _ & _ & Hne).
  { intros Hnil. rewrite Hnil in Ht. destruct Ht. }
  destruct (ledger_dates now customer transactions) as [_ Hcover].
  apply (Hcover Hne). apply eventDatesOf_In. right. left.
  split; [assumption|]. split; [now exists t | assumption].
Qed.

Lemma quarter_ends_covered_witness :
  exists r,
    In r (generateLedger laterNow sampleCustomer sampleTransactions)
    /\ LedgerRow.date r = ymd 2023 9 30
    /\ LedgerRow.description r <> Capitalized.
Proof.
  apply (quarter_ends_covered laterNow sampleCustomer sampleTransactions
           (Transaction.mk (ymd 2023 4 1) 100000%Q 0%Q)).
  - discriminate.
  - vm_compute. discriminate.
  - vm_compute. left. reflexivity.
  - vm_compute. reflexivity.
  - vm_compute. discriminate.
  - vm_compute. reflexivity.
Defined.
(** X11. The loop that adds the quarter ends leaves through its test within
    the turns [generateLedger] allows it: more turns change nothing, and the
    result is the one of the [while] loop. *)
Theorem quarter_loop_exits
  (first last cur : Z) (ev : list Z) (fuel : nat) :
  (quarterFuel last cur <= fuel)%nat ->
  quarterLoop fuel first last cur ev =
  quarterLoop (quarterFuel last cur) first last cur ev
  /\ QuarterWhile first last cur ev
       (quarterLoop (quarterFuel last cur) first last cur ev).
Proof.
  intros Hfuel.
  assert (Hrun : QuarterWhile first last cur ev
                   (quarterLoop (quarterFuel last cur) first last cur ev))
    by (apply quarterLoop_enough_fuel; unfold quarterFuel; lia).
  split; [|assumption].
  eapply QuarterWhile_functional; [|exact Hrun].
  apply quarterLoop_enough_fuel. unfold quarterFuel in *. lia.
Qed.

Lemma quarter_loop_exits_witness :
  quarterLoop 1000 (parseDay (ymd 2023 4 1)) (parseDay (ymd 2023 10 2))
    (parseDay (ymd 2023 4 1)) [] =
  quarterLoop
    (quarterFuel (parseDay (ymd 2023 10 2)) (parseDay (ymd 2023 4 1)))
    (parseDay (ymd 2023 4 1)) (parseDay (ymd 2023 10 2))
    (parseDay (ymd 2023 4 1)) []
  /\ QuarterWhile (parseDay (ymd 2023 4 1)) (parseDay (ymd 2023 10 2))
       (parseDay (ymd 2023 4 1)) []
       (quarterLoop
          (quarterFuel (parseDay (ymd 2023 10 2)) (parseDay (ymd 2023 4 1)))
          (parseDay (ymd 2023 4 1)) (parseDay (ymd 2023 10 2))
          (parseDay (ymd 2023 4 1)) []).
Proof.
  apply (quarter_loop_exits (parseDay (ymd 2023 4 1))
           (parseDay (ymd 2023 10 2)) (parseDay (ymd 2023 4 1)) [] 1000).
  apply Nat.leb_le. vm_compute. reflexivity.
Defined.

(** ** The form and the engine *)

(** X13. The transaction form rejects exactly the dates after the end date,
    which are the transactions the engine would drop; what it hands over is
    kept by the engine and has a positive amount paid or repaid; and it does
    nothing when neither amount is positive. *)
Theorem form_hands_over_kept_transactions
  (customer : Customer.t) (date : Z) (amountPaid amountRepaid : option Q) :
  let t := Transaction.mk date (orZero amountPaid) (orZero amountRepaid) in
  match handleSubmit customer date amountPaid amountRepaid with
  | SubmitError iclEndDate =>
      exists e,
        Customer.iclEndDate customer = IsoDate e /\ iclEndDate = parseDay e
        /\ e < date
        /\ notAfterEnd (parseDate (Customer.iclEndDate customer)) t = false
  | SubmitAdd t' =>
      t' = t
      /\ notAfterEnd (parseDate (Customer.iclEndDate customer)) t = true
      /\ ((0 < Transaction.paid t)%Q \/ (0 < Transaction.repaid t)%Q)
  | SubmitNothing =>
      notAfterEnd (parseDate (Customer.iclEndDate customer)) t = true
      /\ (Transaction.paid t <= 0)%Q /\ (Transaction.repaid t <= 0)%Q
  end.
Proof.
  intros t. unfold handleSubmit. cbv zeta.
  assert (Hsubmit :
            match
              (if Qgt_bool (orZero amountPaid) 0
                  || Qgt_bool (orZero amountRepaid) 0
               then SubmitAdd t else SubmitNothing)
            with
            | SubmitError _ => False
            | SubmitAdd t' =>
                t' = t
                /\ ((0 < Transaction.paid t)%Q \/ (0 < Transaction.repaid t)%Q)
            | SubmitNothing =>
                (Transaction.paid t <= 0)%Q /\ (Transaction.repaid t <= 0)%Q
            end).
  { unfold t. cbn [Transaction.paid Transaction.repaid].
    destruct (Qgt_bool (orZero amountPaid) 0) eqn:Hp;
      destruct (Qgt_bool (orZero amountRepaid) 0) eqn:Hr; cbn [orb];
      try (split; [reflexivity|]);
      try (left; now apply Qgt_bool_true);
      try (right; now apply Qgt_bool_true).
    split; apply Qle_bool_iff; unfold Qgt_bool in *;
      now apply negb_false_iff. }
  fold t.
  destruct (Customer.iclEndDate customer) as [|e]; cbn [parseDate notAfterEnd].
  - revert Hsubmit.
    match goal with |- context [if ?b then _ else _] => destruct b end; tauto.
  - replace (Transaction.date t) with date by reflexivity.
    destruct (isAfter (parseDay date) (parseDay e)) eqn:Hafter; cbn [negb].
    + exists e. split; [reflexivity|]. split; [reflexivity|].
      split; [|reflexivity].
      clear Hsubmit. unfold isAfter in Hafter. apply Z.ltb_lt in Hafter.
      rewrite !parseDay_dayStart in Hafter.
      unfold dayStart, msPerDay in Hafter. lia.
    + revert Hsubmit.
      match goal with |- context [if ?b then _ else _] => destruct b end;
        tauto.
Qed.

(** ** The interest of a row *)

Section PeriodInterest.

Variable customer : Customer.t.
Variable iclStartDate : Z.
Variable sortedTransactions : list Transaction.t.

Lemma differenceInDays_aligned (a b : Z) :
  DayAligned a -> DayAligned b -> differenceInDays a b = dayOf a - dayOf b.
Proof.
  unfold DayAligned. intros Ha Hb. unfold differenceInDays.
  rewrite <- Ha at 1. rewrite <- Hb at 1.
  generalize (dayOf a) (dayOf b). intros x y. unfold dayStart.
  replace (x * msPerDay - y * msPerDay) with ((x - y) * msPerDay) by ring.
  apply Z.quot_mul. unfold msPerDay. lia.
Qed.

Lemma getYear_aligned (e : Z) : DayAligned e -> getYear e = yearOfDay (dayOf e).
Proof.
  unfold DayAligned, getYear, yearOfDay. intros H. now rewrite H.
Qed.

(** The first row of a run of events is the row of the first event. *)
Lemma trace_head (dates : list Z) (P C : Q) (r : LedgerRow.t)
  (l : list LedgerRow.t) :
  trace customer iclStartDate sortedTransactions dates P C = r :: l ->
  exists e rest,
    dates = e :: rest
    /\ r = mainRow customer sortedTransactions e (hd_error rest) P C.
Proof.
  destruct dates as [|e rest]; [discriminate|].
  rewrite trace_cons. cbv zeta. intros H. exists e, rest.
  split; [reflexivity|].
  destruct (capitalizes _ _ _ _); now injection H as <- _.
Qed.

(** Capitalizations never open a run of events. *)
Lemma trace_capitalizations (dates : list Z) (P C : Q)
  (mid post : list LedgerRow.t) :
  trace customer iclStartDate sortedTransactions dates P C = mid ++ post ->
  Forall IsCapitalization mid ->
  mid = [].
Proof.
  intros H Hmid. destruct mid as [|x mid]; [reflexivity|].
  cbn [app] in H. destruct (trace_head _ _ _ _ _ H) as (e & rest & _ & ->).
  inversion Hmid as [|? ? Hx _]. now apply mainRow_not_capitalized in Hx.
Qed.

Lemma trace_interest_next (dates : list Z) :
  Forall DayAligned dates ->
  forall P C pre r1 mid r2 post,
    trace customer iclStartDate sortedTransactions dates P C =
    pre ++ r1 :: mid ++ r2 :: post ->
    ~ IsCapitalization r1 ->
    Forall IsCapitalization mid ->
    ~ IsCapitalization r2 ->
    LedgerRow.interest r1 =
    calculateSimpleInterest (LedgerRow.principal r1)
      (Customer.interestRate customer)
      (LedgerRow.date r2 - LedgerRow.date r1)
      (yearOfDay (LedgerRow.date r1)).
Proof.
  induction 1 as [|e rest He Hrest IH];
    intros P C pre r1 mid r2 post Heq H1 Hmid H2.
  { destruct pre; discriminate. }
  rewrite trace_cons in Heq. cbv zeta in Heq.
  set (main := mainRow customer sortedTransactions e (hd_error rest) P C)
    in Heq.
  assert (Hnext :
            forall P' C' post',
              trace customer iclStartDate sortedTransactions rest P' C' =
              r2 :: post' ->
              LedgerRow.interest main =
              calculateSimpleInterest (LedgerRow.principal main)
                (Customer.interestRate customer)
                (LedgerRow.date r2 - LedgerRow.date main)
                (yearOfDay (LedgerRow.date main))).
  { intros P' C' post' Ht.
    destruct (trace_head _ _ _ _ _ Ht) as (e' & rest' & -> & ->).
    inversion Hrest as [|? ? He' _]. subst main.
    rewrite !mainRow_date. unfold mainRow.
    cbn [LedgerRow.interest LedgerRow.principal hd_error periodDays].
    now rewrite differenceInDays_aligned, getYear_aligned. }
  assert (Hmain : ~ IsCapitalization main)
    by apply mainRow_not_capitalized.
  clearbody main.
  assert (Hcap : IsCapitalization
                   (capRow e (LedgerRow.principal main)
                      (LedgerRow.cumulativeInterest main)))
    by reflexivity.
  destruct pre as [|x pre]; cbn [app] in Heq.
  - destruct (capitalizes _ _ _ _).
    + injection Heq as <- Heq.
      destruct mid as [|y mid]; cbn [app] in Heq.
      * injection Heq as <- _. contradiction.
      * injection Heq as _ Heq. inversion Hmid as [|? ? _ Hmid'].
        rewrite (trace_capitalizations _ _ _ _ _ Heq Hmid') in Heq.
        eapply Hnext. exact Heq.
    + injection Heq as <- Heq.
      rewrite (trace_capitalizations _ _ _ _ _ Heq Hmid) in Heq.
      eapply Hnext. exact Heq.
  - destruct (capitalizes _ _ _ _).
    + injection Heq as _ Heq.
      destruct pre as [|y pre]; cbn [app] in Heq.
      * injection Heq as <- _. contradiction.
      * injection Heq as _ Heq. eapply IH; eauto.
    + injection Heq as _ Heq. eapply IH; eauto.
Qed.

Lemma trace_interest_last (dates : list Z) :
  Forall DayAligned dates ->
  forall P C pre r mid,
    trace customer iclStartDate sortedTransactions dates P C =
    pre ++ r :: mid ->
    ~ IsCapitalization r ->
    Forall IsCapitalization mid ->
    LedgerRow.interest r =
    calculateSimpleInterest (LedgerRow.principal r)
      (Customer.interestRate customer) 1 (yearOfDay (LedgerRow.date r)).
Proof.
  induction 1 as [|e rest He Hrest IH]; intros P C pre r mid Heq H1 Hmid.
  { destruct pre; discriminate. }
  rewrite trace_cons in Heq. cbv zeta in Heq.
  set (main := mainRow customer sortedTransactions e (hd_error rest) P C)
    in Heq.
  assert (Hlast :
            forall P' C',
              trace customer iclStartDate sortedTransactions rest P' C' = [] ->
              LedgerRow.interest main =
              calculateSimpleInterest (LedgerRow.principal main)
                (Customer.interestRate customer) 1
                (yearOfDay (LedgerRow.date main))).
  { intros P' C' Ht. destruct rest as [|e' rest'].
    - subst main. rewrite mainRow_date. unfold mainRow.
      cbn [LedgerRow.interest LedgerRow.principal hd_error periodDays].
      now rewrite getYear_aligned.
    - now apply trace_nonempty in Ht. }
  assert (Hempty :
            forall P' C' l,
              trace customer iclStartDate sortedTransactions rest P' C' = l ->
              Forall IsCapitalization l ->
              trace customer iclStartDate sortedTransactions rest P' C' = []).
  { intros P' C' l Ht Hl. rewrite Ht.
    rewrite <- (app_nil_r l) in Ht.
    exact (trace_capitalizations _ _ _ _ _ Ht Hl). }
  assert (Hmain : ~ IsCapitalization main)
    by apply mainRow_not_capitalized.
  clearbody main.
  destruct pre as [|x pre]; cbn [app] in Heq.
  - destruct (capitalizes _ _ _ _).
    + injection Heq as <- Heq. destruct mid as [|y mid]; [discriminate|].
      injection Heq as _ Heq. inversion Hmid as [|? ? _ Hmid'].
      eapply Hlast, Hempty; eauto.
    + injection Heq as <- Heq. eapply Hlast, Hempty; eauto.
  - destruct (capitalizes _ _ _ _).
    + injection Heq as _ Heq.
      destruct pre as [|y pre]; cbn [app] in Heq.
      * injection Heq as <- _. now contradiction H1.
      * injection Heq as _ Heq. eapply IH; eauto.
    + injection Heq as _ Heq. eapply IH; eauto.
Qed.

End PeriodInterest.

Lemma uniqueSortedDates_aligned (eventDates : list Z) :
  Forall DayAligned (sortDates (map parseDay eventDates)).
Proof.
  apply Forall_forall. intros t Ht. apply -> sortDates_In in Ht.
  apply in_map_iff in Ht. destruct Ht as [d [<- _]]. apply parseDay_aligned.
Qed.

(** X15. The interest of a row that is not a capitalization is the simple
    interest on the principal of the row, over the days to the next row that
    is not a capitalization, at the days of the year of the row's date. *)
Theorem interest_over_period
  (now : Z) (customer : Customer.t) (transactions : list Transaction.t)
  (pre mid post : list LedgerRow.t) (r1 r2 : LedgerRow.t) :
  generateLedger now customer transactions = pre ++ r1 :: mid ++ r2 :: post ->
  LedgerRow.description r1 <> Capitalized ->
  Forall IsCapitalization mid ->
  LedgerRow.description r2 <> Capitalized ->
  LedgerRow.interest r1 =
  calculateSimpleInterest (LedgerRow.principal r1)
    (Customer.interestRate customer)
    (LedgerRow.date r2 - LedgerRow.date r1)
    (yearOfDay (LedgerRow.date r1)).
Proof.
  intros Heq H1 Hmid H2.
  destruct (generateLedger_view now customer transactions)
    as [[Hnil _] | (start & first & rest & _ & _ & _ & Htrace)].
  { rewrite Hnil in Heq. destruct pre; discriminate. }
  rewrite Htrace in Heq.
  eapply trace_interest_next; eauto using uniqueSortedDates_aligned.
Qed.

Lemma interest_over_period_witness :
  LedgerRow.interest (sampleRow 1 laterLedger) =
  calculateSimpleInterest (LedgerRow.principal (sampleRow 1 laterLedger))
    (Customer.interestRate sampleCustomer)
    (LedgerRow.date (sampleRow 3 laterLedger)
     - LedgerRow.date (sampleRow 1 laterLedger))
    (yearOfDay (LedgerRow.date (sampleRow 1 laterLedger))).
Proof.
  apply (interest_over_period laterNow sampleCustomer sampleTransactions
           (firstn 1 laterLedger) [sampleRow 2 laterLedger]
           (skipn 4 laterLedger)).
  - vm_compute. reflexivity.
  - vm_compute. discriminate.
  - constructor; [vm_compute; reflexivity | constructor].
  - vm_compute. discriminate.
Defined.

(** X16. The interest of the last row that is not a capitalization is the
    simple interest on its principal for one day. *)
Theorem closing_interest_one_day
  (now : Z) (customer : Customer.t) (transactions : list Transaction.t)
  (pre mid : list LedgerRow.t) (r : LedgerRow.t) :
  generateLedger now customer transactions = pre ++ r :: mid ->
  LedgerRow.description r <> Capitalized ->
  Forall IsCapitalization mid ->
  LedgerRow.interest r =
  calculateSimpleInterest (LedgerRow.principal r)
    (Customer.interestRate customer) 1 (yearOfDay (LedgerRow.date r)).
Proof.
  intros Heq H1 Hmid.
  destruct (generateLedger_view now customer transactions)
    as [[Hnil _] | (start & first & rest & _ & _ & _ & Htrace)].
  { rewrite Hnil in Heq. destruct pre; discriminate. }
  rewrite Htrace in Heq.
  eapply trace_interest_last; eauto using uniqueSortedDates_aligned.
Qed.

Lemma closing_interest_one_day_witness :
  LedgerRow.interest (sampleRow 3 laterLedger) =
  calculateSimpleInterest (LedgerRow.principal (sampleRow 3 laterLedger))
    (Customer.interestRate sampleCustomer) 1
    (yearOfDay (LedgerRow.date (sampleRow 3 laterLedger))).
Proof.
  apply (closing_interest_one_day laterNow sampleCustomer sampleTransactions
           (firstn 3 laterLedger) [sampleRow 4 laterLedger]).
  - vm_compute. reflexivity.
  - vm_compute. discriminate.
  - constructor; [vm_compute; reflexivity | constructor].
Defined.
(** ** Transactions after the end date *)

Lemma keptTransactions_idempotent (customer : Customer.t)
  (transactions : list Transaction.t) :
  keptTransactions customer (keptTransactions customer transactions) =
  keptTransactions customer transactions.
Proof.
  unfold keptTransactions.
  induction transactions as [|t l IH]; [reflexivity|].
  cbn [filter].
  destruct (notAfterEnd _ t) eqn:Ht; [|exact IH].
  cbn [filter]. now rewrite Ht, IH.
Qed.

(** X17. Transactions dated after the end date have no effect: the ledger of
    all transactions is the ledger of those that are not after the end
    date. *)
Theorem late_transactions_ignored
  (now : Z) (customer : Customer.t) (transactions : list Transaction.t) :
  generateLedger now customer transactions =
  generateLedger now customer (keptTransactions customer transactions).
Proof.
  pose proof (keptTransactions_idempotent customer transactions) as Hidem.
  unfold keptTransactions in Hidem. unfold generateLedger, keptTransactions.
  destruct (parseDate (Customer.iclStartDate customer)) as [start|];
    [|reflexivity].
  destruct (isTruthy (Customer.interestRate customer)); [|reflexivity].
  cbn [negb orb]. rewrite Hidem.
  destruct (filter _ transactions) as [|t kept] eqn:Hkept.
  - destruct (_ =? _)%nat; reflexivity.
  - destruct transactions as [|t0 l]; [discriminate|]. reflexivity.
Qed.
